(** * jqURL: the cache scan, the retry loop and the output loop of [main.go]

    A shallow embedding of [main] and [doCurl].  The program is sequential
    and talks to the outside through a handful of library calls; each of
    them is a field of [Env] (what the call answers) and each observable
    action is an [Event] of the run's trace.  The file system is a finite
    map from paths to files, threaded through the run.

    Not modelled: lines sent to stderr ([log.Println], the response
    headers echoed for [includeHeader]), TLS set-up and the redirect
    policy of the HTTP client, which never change the control flow below.
    A query whose iterator never ends is outside the model: [gojq] hands
    back a finite list of results here. *)

From Stdlib Require Import ZArith Ascii String List Lia.
From stdpp Require Import base gmap strings list.
From stdpp Require pretty.

Open Scope string_scope.
Open Scope list_scope.

(** ** Data *)

(** The package-level variables set by the command-line flags, with the
    names they have in [main.go].  Durations are nanoseconds
    ([time.Duration] is an [int64]); [CmdArgs] is [params.Args()], the
    query followed by the URLs. *)
Record Config := {
  debug : bool;
  raw : bool;
  includeHeader : bool;
  flush : bool;
  useCache : bool;
  pretty : bool;
  cert : string;
  key : string;
  ca : string;
  cacheDir : string;
  method : string;
  postData : string;
  outputFile : string;
  docker : string;
  maxTries : Z;
  delay : Z;
  maxAge : Z;
  CmdArgs : list string
}.

(** A file: its bytes, its modification time (nanoseconds on the same
    axis as [time.Now()]) and whether this user may read it. *)
Record file := File {
  f_data : string;
  f_mtime : Z;
  f_readable : bool
}.

Abbreviation FS := (gmap string file).

(** How the process ends: [Exit0] is a normal return from [main],
    [Exit1] is [log.Fatalf] or [os.Exit(1)], [Panic] a run-time panic. *)
Inductive Exit := Exit0 | Exit1 | Panic.

(** What [client.Do] followed by [ioutil.ReadAll] gives for one request. *)
Inductive Response :=
| DoErr (msg : string)          (* client.Do returned an error *)
| ReadErr                       (* the body could not be read *)
| Body (byt : string).          (* the body, read to the end *)

Section Program.

(** [interface{}]: the values of a decoded JSON document are opaque to
    the program, which only measures [len(dat)] and hands [dat] on. *)
Context {Value : Type}.

(** [dat], a [map[string]interface{}].  A nil map and an empty map both
    have length 0 and are both the empty map here. *)
Abbreviation Dat := (gmap string Value).

(** One item of the iterator returned by [query.Run]. *)
Inductive Result :=
| Yield (v : Value)
| YieldErr (msg : string).

(** The answers of the libraries and of the operating system. *)
Record Env := {
  os_Getuid : Z;
  (* the "%x" rendering of the SHA-1 digest of the bytes written to it *)
  sha1_hex : string -> string;
  (* time.Now() read in the i-th iteration of the cache scan *)
  time_Now : nat -> Z;
  (* url.Parse: inl is the text of the error, inr the URL's String() *)
  url_Parse : string -> string + string;
  (* tls.LoadX509KeyPair cert key succeeds *)
  tls_LoadX509KeyPair : string -> string -> bool;
  (* netns.GetFromDocker succeeds *)
  netns_GetFromDocker : string -> bool;
  (* json.Unmarshal byt &dat: the new dat and whether err != nil *)
  json_Unmarshal : string -> Dat -> Dat * bool;
  (* http.NewRequestWithContext method url succeeds *)
  http_NewRequest : string -> string -> bool;
  (* the iteration order of [range Headers] in attempt j *)
  range_Headers : nat -> list (string * string);
  (* the request of attempt j to the given URL *)
  client_Do : nat -> string -> Response;
  (* ioutil.WriteFile / os.Create may open this path for writing *)
  os_writable : string -> bool;
  (* the modification time given to the file written in the n-th
     iteration of the retry loop, or of the output loop *)
  write_time : nat -> Z;
  (* gojq.Parse: None is a syntax error, otherwise query.Run *)
  gojq_Parse : string -> option (Dat -> list Result);
  (* fmt "%v", fmt "%#v", json.Marshal, json.MarshalIndent *)
  fmt_v : Value -> string;
  fmt_sharp_v : Value -> string;
  json_Marshal : Value -> string;
  json_MarshalIndent : Value -> string
}.

(** What the run does, in order. *)
Inductive Event :=
| EUsage                                   (* params.Usage() *)
| EStat (path : string)                    (* os.Stat *)
| EReadFile (path : string) (ok : bool)    (* ioutil.ReadFile of a cache file *)
| EDecode (d : Dat) (err : bool)           (* json.Unmarshal left d in dat *)
| ERequest (j i : nat) (url : string)      (* client.Do, attempt j, urls[i] *)
| EWriteFile (path data : string) (ok : bool)  (* ioutil.WriteFile *)
| ESleep (j : nat) (d : Z)                 (* time.Sleep(delay) ending attempt j *)
| EQuery (d : Dat)                         (* query.Run(dat) *)
| ECreate (path : string) (ok : bool)      (* os.Create *)
| EFileOut (path line : string)            (* Fprintf to the output file *)
| EStdout (s : string).                    (* a write to os.Stdout *)

Abbreviation Trace := (list Event).

(** Observations on a trace. *)
Definition is_request (e : Event) : bool :=
  match e with ERequest _ _ _ => true | _ => false end.

Definition is_sleep (e : Event) : bool :=
  match e with ESleep _ _ => true | _ => false end.

Definition is_cache_read (e : Event) : bool :=
  match e with EReadFile _ _ => true | _ => false end.

Definition is_cache_write (e : Event) : bool :=
  match e with EWriteFile _ _ _ => true | _ => false end.

Definition is_create (e : Event) : bool :=
  match e with ECreate _ _ => true | _ => false end.

Definition is_stdout (e : Event) : bool :=
  match e with EStdout _ => true | _ => false end.

(** What the output loop does. *)
Definition is_output (e : Event) : bool :=
  match e with
  | ECreate _ _ | EFileOut _ _ | EStdout _ => true
  | _ => false
  end.

(** Cache lookups, decodings and requests: what the program does to get
    hold of a document. *)
Definition is_fetch (e : Event) : bool :=
  match e with
  | EStat _ | EReadFile _ _ | EDecode _ _ | ERequest _ _ _ => true
  | _ => false
  end.

Definition count (p : Event -> bool) (t : Trace) : nat :=
  length (List.filter p t).

(** What the cache scan does. *)
Definition is_scan (e : Event) : bool :=
  match e with
  | EStat _ | EReadFile _ _ | EDecode _ _ => true
  | _ => false
  end.

Definition quiet (t : Trace) : bool :=
  forallb (fun e => negb (is_fetch e)) t.

(** No fetch once a decoding has left a non-empty document. *)
Fixpoint settled (t : Trace) : bool :=
  match t with
  | [] => true
  | EDecode d _ :: t' => if (size d =? 0)%nat then settled t' else quiet t'
  | _ :: t' => settled t'
  end.

(** The outcome of one pass through the body of the retry loop. *)
Inductive Step :=
| Fatal                          (* log.Fatalf *)
| Break (d : Dat) (fs : FS)      (* break *)
| Continue (d : Dat).            (* fall through to the pacing test *)

(** The outcome of the retry loop. *)
Inductive Loop :=
| LAbort (x : Exit)
| LDone (d : Dat) (fs : FS).

(** A finished run. *)
Record Run := mkRun {
  trace : Trace;
  fs_final : FS;
  exit : Exit
}.

(** ** The operating system *)

Definition os_Stat (fs : FS) (path : string) : option Z :=
  f_mtime <$> fs !! path.

Definition ioutil_ReadFile (fs : FS) (path : string) : option string :=
  match fs !! path with
  | Some f => if f_readable f then Some (f_data f) else None
  | None => None
  end.

(** [ioutil.WriteFile path data 0666]: the file is replaced and stamped;
    the empty path can never be opened. The boolean is [err != nil]. *)
Definition ioutil_WriteFile (E : Env) (fs : FS) (path data : string) (t : Z)
  : FS * bool :=
  if negb (path =? "") && os_writable E path
  then (<[path := File data t true]> fs, false)
  else (fs, true).

(** [os.Create path]: the file exists and is empty afterwards. *)
Definition os_Create (E : Env) (fs : FS) (path : string) (t : Z) : option FS :=
  if negb (path =? "") && os_writable E path
  then Some (<[path := File "" t true]> fs)
  else None.

(** A write through a handle that stands at the end of the file. *)
Definition file_write (fs : FS) (path s : string) (t : Z) : FS :=
  match fs !! path with
  | Some f => <[path := File (f_data f +:+ s) t (f_readable f)]> fs
  | None => fs
  end.

(** ** [main]: the cache scan *)

Section WithConfig.
Variable cfg : Config.
Variable E : Env.

(** [fmt.Sprintf("%s/jqurl_%x", cacheDir, bs)] where [bs] is the SHA-1
    of the URL argument followed by the decimal user id. *)
Definition cacheFile (Arg : string) : string :=
  cacheDir cfg +:+ "/jqurl_" +:+ sha1_hex E (Arg +:+ pretty.pretty (os_Getuid E)).

(** [time.Now().Add(maxAge).After(stat.ModTime())] *)
Definition age_test (i : nat) (mtime : Z) : bool :=
  (mtime <? time_Now E i + maxAge cfg)%Z.

(** The second [for i, Arg := range Args] of [main], from index [i] on.
    [cacheFiles] starts as [len(Args)] empty strings; the slots after a
    [break] stay empty. *)
Fixpoint cache_scan (fs : FS) (i : nat) (Args : list string)
    (cacheFiles : list string) (dat : Dat) : Trace * list string * Dat :=
  match Args with
  | [] => ([], cacheFiles, dat)
  | Arg :: rest =>
    let cf := cacheFile Arg in
    let cacheFiles' := <[i := cf]> cacheFiles in
    let next (done : Trace) :=
      let '(t, cfs, d) := cache_scan fs (S i) rest cacheFiles' dat in
      (done ++ t, cfs, d) in
    match os_Stat fs cf with
    | Some mtime =>
      if negb (flush cfg) && useCache cfg && age_test i mtime then
        match ioutil_ReadFile fs cf with
        | Some byt =>
          let '(dat', err) := json_Unmarshal E byt dat in
          ([EStat cf; EReadFile cf true; EDecode dat' err], cacheFiles', dat')
        | None => next [EStat cf; EReadFile cf false]
        end
      else next [EStat cf]
    | None => next [EStat cf]
    end
  end.

(** What one iteration of the scan finds for [Arg]: the bytes of its
    cache file when the condition of the [if] holds and the file can be
    read, nothing otherwise. *)
Definition cache_lookup (fs : FS) (i : nat) (Arg : string) : option string :=
  match os_Stat fs (cacheFile Arg) with
  | Some mtime =>
    if negb (flush cfg) && useCache cfg && age_test i mtime
    then ioutil_ReadFile fs (cacheFile Arg) else None
  | None => None
  end.

(** What an iteration that does not end the scan does: it probes the
    file and, when the condition of the [if] holds, fails to read it. *)
Definition probe (fs : FS) (i : nat) (Arg : string) : Trace :=
  match os_Stat fs (cacheFile Arg) with
  | Some mtime =>
    if negb (flush cfg) && useCache cfg && age_test i mtime
    then [EStat (cacheFile Arg); EReadFile (cacheFile Arg) false]
    else [EStat (cacheFile Arg)]
  | None => [EStat (cacheFile Arg)]
  end.

Fixpoint probes (fs : FS) (i : nat) (Args : list string) : Trace :=
  match Args with
  | [] => []
  | Arg :: rest => probe fs i Arg ++ probes fs (S i) rest
  end.

(** [cacheFiles] after the iterations for [Args], the first being [i]. *)
Fixpoint fill (i : nat) (Args : list string) (cacheFiles : list string)
  : list string :=
  match Args with
  | [] => cacheFiles
  | Arg :: rest => fill (S i) rest (<[i := cacheFile Arg]> cacheFiles)
  end.

(** [main]'s scan over all of [Args]. *)
Definition scan (fs : FS) (Args : list string) : Trace * list string * Dat :=
  cache_scan fs 0 Args (replicate (length Args) "") ∅.

(** ** [doCurl]: the retry loop *)

Variable Args : list string.       (* the URL arguments *)
Variable urls : list string.       (* urls[i].String() *)
Variable cacheFiles : list string.

(** The reader of the request body: [log.Fatalf] when the file named
    after [@] cannot be opened. *)
Definition post_reader_ok (fs : FS) : bool :=
  if method cfg =? "POST" then
    match postData cfg with
    | String "@"%char name => bool_decide (is_Some (ioutil_ReadFile fs name))
    | _ => true
    end
  else true.

Definition debug_headers (j : nat) : Trace :=
  if debug cfg then
    map (fun kv => EStdout ("Request Header: " +:+ fst kv +:+ ": " +:+ snd kv +:+ "
")) (range_Headers E j)
  else [].

(** The body of the loop for [j], up to and without the pacing test. *)
Definition attempt (j : nat) (dat : Dat) (fs : FS) : Trace * Step :=
  let i := (j mod length Args)%nat in
  if negb (post_reader_ok fs) then ([], Fatal) else
  let u := nth i urls "" in
  if negb (http_NewRequest E (method cfg) u) then ([], Fatal) else
  let t0 := debug_headers j ++ [ERequest j i u] in
  match client_Do E j u with
  | DoErr msg =>
    (t0 ++ (if debug cfg
            then [EStdout ("Error doing http request: " +:+ msg +:+ "
")] else []),
     Continue dat)
  | ReadErr => (t0, Continue dat)
  | Body byt =>
    let '(dat', err) := json_Unmarshal E byt dat in
    let t1 := t0 ++ [EDecode dat' err] in
    if err then
      if debug cfg then (t1, Fatal) else (t1, Continue dat')
    else if negb (useCache cfg) then (t1, Break dat' fs)
    else
      let path := nth i cacheFiles "" in
      let '(fs', werr) := ioutil_WriteFile E fs path byt (write_time E j) in
      let t2 := t1 ++ [EWriteFile path byt (negb werr)] in
      if werr && debug cfg then (t2, Fatal) else (t2, Break dat' fs')
  end.

(** [if i%len(Args) == len(Args)-1 { time.Sleep(delay) }] *)
Definition pacing (j : nat) : Trace :=
  let i := (j mod length Args)%nat in
  if (i mod length Args =? length Args - 1)%nat then [ESleep j (delay cfg)]
  else [].

(** [for j := 0; j < maxTries && len(dat) == 0; j++], entered at [j]
    with [n = maxTries - j] iterations left. *)
Fixpoint retry (n j : nat) (dat : Dat) (fs : FS) : Trace * Loop :=
  match n with
  | O => ([], LDone dat fs)
  | S n' =>
    if (size dat =? 0)%nat then
      match length Args with
      | O => ([], LAbort Panic)          (* integer divide by zero *)
      | _ =>
        match attempt j dat fs with
        | (t, Fatal) => (t, LAbort Exit1)
        | (t, Break dat' fs') => (t, LDone dat' fs')
        | (t, Continue dat') =>
          let '(t', r) := retry n' (S j) dat' fs in
          (t ++ pacing j ++ t', r)
        end
      end
    else ([], LDone dat fs)
  end.

(** Every attempt below [n] fails without ending the process, whatever
    empty document it starts from. *)
Definition all_fail (n : nat) (fs : FS) : Prop :=
  forall j d, (j < n)%nat -> size d = 0%nat ->
    exists t d', attempt j d fs = (t, Continue d') /\ size d' = 0%nat.

(** The request of attempt [j]. *)
Definition request_of (j : nat) : Event :=
  ERequest j (j mod length Args) (nth (j mod length Args) urls "").

(** ** [doCurl]: the output loop *)

Definition render (v : Value) : string :=
  if raw cfg then fmt_v E v +:+ "
"
  else (if pretty cfg then json_MarshalIndent E v else json_Marshal E v) +:+ "
".

(** [if debug { fmt.Printf("%#v\n", v) }] *)
Definition debug_value (v : Value) : Trace :=
  if debug cfg then [EStdout (fmt_sharp_v E v +:+ "
")] else [].

(** [for { v, ok := iter.Next() ... }] over the results from the [k]-th on. *)
Fixpoint emit (k : nat) (rs : list Result) (fs : FS) : Run :=
  match rs with
  | [] => mkRun [] fs Exit0
  | YieldErr _ :: _ => mkRun [] fs Exit1
  | Yield v :: rs' =>
    let dbg := debug_value v in
    if outputFile cfg =? "" then
      let r := emit (S k) rs' fs in
      mkRun (dbg ++ EStdout (render v) :: trace r) (fs_final r) (exit r)
    else
      match os_Create E fs (outputFile cfg) (write_time E k) with
      | None => mkRun (dbg ++ [ECreate (outputFile cfg) false]) fs Exit1
      | Some fs1 =>
        let fs2 := file_write fs1 (outputFile cfg) (render v) (write_time E k) in
        let r := emit (S k) rs' fs2 in
        mkRun (dbg ++ ECreate (outputFile cfg) true
                   :: EFileOut (outputFile cfg) (render v) :: trace r)
              (fs_final r) (exit r)
      end
  end.

(** [doCurl()] with the globals it reads as arguments. *)
Definition doCurl (JQString : string) (dat : Dat) (fs : FS) : Run :=
  match retry (Z.to_nat (maxTries cfg)) 0 dat fs with
  | (t, LAbort x) => mkRun t fs x
  | (t, LDone dat' fs') =>
    match gojq_Parse E JQString with
    | None => mkRun t fs' Exit1
    | Some run =>
      let r := emit 0 (run dat') fs' in
      mkRun (t ++ EQuery dat' :: trace r) (fs_final r) (exit r)
    end
  end.

End WithConfig.

(** ** [main] *)

(** The first [for i, Arg := range Args]: the URLs, or the error of the
    first argument that does not parse. *)
Fixpoint parse_urls (E : Env) (Args : list string) : string + list string :=
  match Args with
  | [] => inr []
  | Arg :: rest =>
    match url_Parse E Arg with
    | inl msg => inl msg
    | inr u =>
      match parse_urls E rest with
      | inl msg => inl msg
      | inr urls => inr (u :: urls)
      end
    end
  end.

Definition main (cfg : Config) (E : Env) (fs : FS) : Run :=
  if negb (ca cfg =? "") && negb (bool_decide (is_Some (ioutil_ReadFile fs (ca cfg))))
  then mkRun [] fs Exit1 else
  let key' := if negb (cert cfg =? "") && (key cfg =? "") then cert cfg else key cfg in
  if negb (cert cfg =? "") && negb (key' =? "")
     && negb (tls_LoadX509KeyPair E (cert cfg) key')
  then mkRun [] fs Exit1 else
  match CmdArgs cfg with
  | [] | [_] => mkRun [EUsage] fs Exit1
  | JQString :: Args =>
    match parse_urls E Args with
    | inl msg => mkRun [EStdout ("Malformed URL: " +:+ msg +:+ "
")] fs Exit1
    | inr urls =>
      let '(t, cacheFiles, dat) := scan cfg E fs Args in
      if negb (docker cfg =? "") && negb (netns_GetFromDocker E (docker cfg))
      then mkRun t fs Exit1
      else
        let r := doCurl cfg E Args urls cacheFiles JQString dat fs in
        mkRun (t ++ trace r) (fs_final r) (exit r)
    end
  end.

End Program.

(** ** [headerValue.Set] and the defaults of [main] *)

Definition is_query {Value : Type} (e : @Event Value) : bool :=
  match e with EQuery _ => true | _ => false end.

Fixpoint has_byte (c : ascii) (s : string) : bool :=
  match s with
  | EmptyString => false
  | String d rest => Ascii.eqb c d || has_byte c rest
  end.

(** [strings.SplitN(s, ":", 2)]: the text before the first colon and the
    text after it, or nothing when [s] has no colon (one part). *)
Fixpoint split_colon (s : string) : option (string * string) :=
  match s with
  | EmptyString => None
  | String c rest =>
    if Ascii.eqb c ":" then Some (EmptyString, rest)
    else
      match split_colon rest with
      | Some (name, value) => Some (String c name, value)
      | None => None
      end
  end.

(** [s] without its prefix [p], when it starts with [p]. *)
Fixpoint strip_prefix (s p : string) : option string :=
  match p with
  | EmptyString => Some s
  | String c p' =>
    match s with
    | EmptyString => None
    | String d s' => if Ascii.eqb c d then strip_prefix s' p' else None
    end
  end.

(** [strings.TrimPrefix(s, p)] *)
Definition strings_TrimPrefix (s p : string) : string :=
  default s (strip_prefix s p).

(** The outcome of [Set]: a panic on [val[0]], the error, or [nil] with
    the new [Headers]. *)
Inductive SetResult :=
| SetPanic
| SetError (msg : string)
| SetOk (Headers : gmap string string).

(** The initial value of [Headers]. *)
Definition Headers0 : gmap string string :=
  {[ "content-type" := "application/json" ]}.

Section HeaderValue.

(** [strings.TrimSpace] and [strings.ToLower], which work on runes. *)
Variables (strings_TrimSpace strings_ToLower : string -> string).

(** [func (h *headerValue) Set(val []string) error] *)
Definition headerValue_Set (val : list string) (Headers : gmap string string)
  : SetResult :=
  match val with
  | [] => SetPanic
  | v0 :: _ =>
    match split_colon v0 with
    | None => SetError "Malformatted header"
    | Some (name, value) =>
      SetOk (<[strings_ToLower (strings_TrimSpace name) :=
                 strings_TrimPrefix value " "]> Headers)
    end
  end.

End HeaderValue.

(** Every slot of [cacheFiles] is empty or holds the cache file of the
    argument with its index. *)
Definition slots_ok {Value : Type} (cfg : Config) (E : @Env Value)
    (A cfs : list string) : Prop :=
  forall k, nth k cfs "" = ""
            \/ exists a, A !! k = Some a /\ nth k cfs "" = cacheFile cfg E a.

(** The two bytes of the Go literal for a colon and a backslash. *)
Definition colon_backslash : string :=
  String ":" (String (ascii_of_nat 92) EmptyString).

(** The default of [--cachedir]: [temp] after the [if] on [TEMP] in
    [main], given [os.Getenv("TEMP")] and [os.TempDir()]. *)
Definition default_cacheDir (TEMP os_TempDir : string) : string :=
  if (4 <? String.length TEMP)%nat && (substring 1 1 TEMP =? colon_backslash)
  then TEMP else os_TempDir.

(** ** A concrete world

    Documents whose values are [null] or an integer, the three response
    bodies used below with the answer [json.Unmarshal] gives for each, and
    two URLs with their real cache keys for user id 1000. *)
Module Sample.

Inductive json := JNull | JNum (n : Z).

Definition dq : string := String (ascii_of_nat 34) EmptyString.

(* {"y":2} and {"x":1} *)
Definition doc_y2 : string := "{" +:+ dq +:+ "y" +:+ dq +:+ ":2}".
Definition doc_x1 : string := "{" +:+ dq +:+ "x" +:+ dq +:+ ":1}".

Definition urlA : string := "https://example.com/a.json".
Definition urlB : string := "https://example.com/b.json".

Definition hour : Z := 3600000000000.
Definition second : Z := 1000000000.

(** [json.Unmarshal] on the bodies above: an object is merged into the
    map, anything that is not JSON is an error and leaves the map alone. *)
Definition Unmarshal (byt : string) (dat : gmap string json)
  : gmap string json * bool :=
  if byt =? "{}" then (dat, false)
  else if byt =? doc_y2 then (<["y" := JNum 2]> dat, false)
  else if byt =? doc_x1 then (<["x" := JNum 1]> dat, false)
  else (dat, true).

(** SHA-1 of the URL followed by "1000", in hexadecimal. *)
Definition sha1 (s : string) : string :=
  if s =? urlA +:+ "1000" then "cf4b2782b8d5c89754ee01964069ed84450d15d6"
  else if s =? urlB +:+ "1000" then "210b9a1602e1a3eea0073a4bcdccad152ed7d329"
  else "da39a3ee5e6b4b0d3255bfef95601890afd80709".

Definition field (k : string) (d : gmap string json) : @Result json :=
  Yield (default JNull (d !! k)).

(** The queries [.x], [.y] and [.x, .y]. *)
Definition query (q : string) : option (gmap string json -> list (@Result json)) :=
  if q =? ".x" then Some (fun d => [field "x" d])
  else if q =? ".y" then Some (fun d => [field "y" d])
  else if q =? ".x, .y" then Some (fun d => [field "x" d; field "y" d])
  else None.

(** [json.Marshal] and the [fmt] verbs on these values. *)
Definition show (v : json) : string :=
  match v with
  | JNull => "null"
  | JNum n => pretty.pretty n
  end.

Definition show_v (v : json) : string :=
  match v with
  | JNull => "<nil>"
  | JNum n => pretty.pretty n
  end.

(** The world: the clock reads [now] throughout, every URL parses to
    itself, and [net] and [writable] are left to the scenario. *)
Definition env (now : Z) (net : nat -> string -> Response)
    (writable : string -> bool) : @Env json := {|
  os_Getuid := 1000%Z;
  sha1_hex := sha1;
  time_Now := fun _ => now;
  url_Parse := inr;
  tls_LoadX509KeyPair := fun _ _ => true;
  netns_GetFromDocker := fun _ => true;
  json_Unmarshal := Unmarshal;
  http_NewRequest := fun _ _ => true;
  range_Headers := fun _ => [("content-type", "application/json")];
  client_Do := net;
  os_writable := writable;
  write_time := fun _ => now;
  gojq_Parse := query;
  fmt_v := show_v;
  fmt_sharp_v := show_v;
  json_Marshal := show;
  json_MarshalIndent := show
|}.

(** The flags at their defaults, but for the ones a scenario sets. *)
Definition config (dbg fl cache : bool) (out : string) (tries : Z)
    (args : list string) : Config := {|
  debug := dbg; raw := false; includeHeader := false; flush := fl;
  useCache := cache; pretty := false;
  cert := ""; key := ""; ca := ""; cacheDir := "/tmp"; method := "GET";
  postData := ""; outputFile := out; docker := "";
  maxTries := tries; delay := (7 * second)%Z; maxAge := (4 * hour)%Z;
  CmdArgs := args
|}.

Definition keyA : string := "/tmp/jqurl_cf4b2782b8d5c89754ee01964069ed84450d15d6".
Definition keyB : string := "/tmp/jqurl_210b9a1602e1a3eea0073a4bcdccad152ed7d329".

Definition down : nat -> string -> Response := fun _ _ => DoErr "timeout".
Definition serve (byt : string) : nat -> string -> Response := fun _ _ => Body byt.
Definition anywhere : string -> bool := fun _ => true.
Definition nowhere : string -> bool := fun _ => false.

Definition targets : list string := [urlA; urlB].
Definition keys : list string := [keyA; keyB].

(** Both servers are down; five tries over the two targets. *)
Definition offline_cfg : Config := config false false false "" 5 (".x" :: targets).
Definition offline : @Env json := env (10 * hour) down nowhere.

(** One target whose cache file was written ten hours ago; the maximum
    age is the default four hours. *)
Definition stale_cfg : Config := config false false true "" 30 [".y"; urlA].
Definition stale_fs : FS := {[ keyA := File doc_y2 0 true ]}.
Definition stale : @Env json := env (10 * hour) down nowhere.

(** One target whose cache file is an hour old. *)
Definition fresh_fs : FS := {[ keyA := File doc_y2 (9 * hour) true ]}.
Definition online : @Env json := env (10 * hour) (serve doc_x1) anywhere.

(** The same, the cached document being the empty object. *)
Definition hollow_cfg : Config := config false false true "" 1 [".x"; urlA].
Definition hollow_fs : FS := {[ keyA := File "{}" (9 * hour) true ]}.

(** Force refresh over a fresh cache file. *)
Definition flush_cfg : Config := config false true true "" 3 [".x"; urlA].

(** The server is down and the output file cannot be created. *)
Definition readonly_cfg : Config :=
  config false false false "/nonexistent/out.json" 1 [".x"; urlA].

(** The server answers with something that is not JSON. *)
Definition garbled_cfg : Config := config false false true "" 3 [".x"; urlA].
Definition garbled : @Env json := env (10 * hour) (serve "<html>") nowhere.

(** Two targets; the cache file of the first is fresh and not JSON. *)
Definition broken_cfg : Config := config false false true "" 3 (".y" :: targets).
Definition broken_fs : FS :=
  {[ keyA := File "<html>" (9 * hour) true; keyB := File doc_y2 (9 * hour) true ]}.

(** Two results sent to a file. *)
Definition tofile_cfg : Config :=
  config false false false "/tmp/out.json" 1 [".x, .y"; urlA].

(** A world with its own user id, URL parser and network namespaces. *)
Definition world (uid now : Z) (parse : string -> string + string) (ns : bool)
    (net : nat -> string -> Response) (writable : string -> bool) : @Env json := {|
  os_Getuid := uid;
  sha1_hex := sha1;
  time_Now := fun _ => now;
  url_Parse := parse;
  tls_LoadX509KeyPair := fun _ _ => true;
  netns_GetFromDocker := fun _ => ns;
  json_Unmarshal := Unmarshal;
  http_NewRequest := fun _ _ => true;
  range_Headers := fun _ => [("content-type", "application/json")];
  client_Do := net;
  os_writable := writable;
  write_time := fun _ => now;
  gojq_Parse := query;
  fmt_v := show_v;
  fmt_sharp_v := show_v;
  json_Marshal := show;
  json_MarshalIndent := show
|}.

(** An address with an unclosed bracket, and what [url.Parse] says. *)
Definition badurl : string := "http://[::1".
Definition badurl_error : string :=
  "parse " +:+ dq +:+ badurl +:+ dq +:+ ": missing ']' in host".
Definition picky (s : string) : string + string :=
  if s =? badurl then inl badurl_error else inr s.
Definition strict : @Env json := world 1000 (10 * hour) picky true down nowhere.
Definition badurl_cfg : Config := config false false true "" 30 [".x"; urlA; badurl].

(** The container of [--docker] does not exist. *)
Definition docker_cfg : Config := {|
  debug := false; raw := false; includeHeader := false; flush := false;
  useCache := true; pretty := false;
  cert := ""; key := ""; ca := ""; cacheDir := "/tmp"; method := "GET";
  postData := ""; outputFile := ""; docker := "0123abcd";
  maxTries := 30; delay := (7 * second)%Z; maxAge := (4 * hour)%Z;
  CmdArgs := [".y"; urlA]
|}.
Definition detached : @Env json :=
  world 1000 (10 * hour) inr false (serve doc_x1) anywhere.

(** A POST whose body is to be read from a file that is not there. *)
Definition post_cfg : Config := {|
  debug := false; raw := false; includeHeader := false; flush := false;
  useCache := false; pretty := false;
  cert := ""; key := ""; ca := ""; cacheDir := "/tmp"; method := "POST";
  postData := "@body.json"; outputFile := ""; docker := "";
  maxTries := 30; delay := (7 * second)%Z; maxAge := (4 * hour)%Z;
  CmdArgs := [".x"; urlA]
|}.

(** No try allowed. *)
Definition notry_cfg : Config := config false false true "" 0 [".x"; urlA].

(** The server answers with the empty object. *)
Definition empty_cfg : Config := config false false false "" 30 [".x"; urlA].
Definition hollow : @Env json := env (10 * hour) (serve "{}") anywhere.

(** A first run that fetches and stores, and the world an hour later. *)
Definition store_cfg : Config := config false false true "" 30 [".x"; urlA].
Definition later : @Env json := env (11 * hour) down nowhere.

(** A query whose second result is an error. *)
Definition failing (d : gmap string json) : list (@Result json) :=
  [field "x" d; YieldErr "cannot iterate over: null"; field "y" d].

(** Two targets: the first is down and has a fresh cache file holding
    the empty object, the second answers. *)
Definition only_b : nat -> string -> Response :=
  fun _ u => if u =? urlB then Body doc_x1 else DoErr "timeout".
Definition lopsided_cfg : Config := config false false true "" 30 (".x" :: targets).
Definition lopsided : @Env json := env (10 * hour) only_b anywhere.

(** Two targets: the cache file of the first was written ten hours ago
    and is not JSON, that of the second is an hour old. *)
Definition expired_fs : FS :=
  {[ keyA := File "<html>" 0 true; keyB := File doc_y2 (9 * hour) true ]}.

(** Two users on one machine. *)
Definition user23 : @Env json := world 23 (10 * hour) inr true down nowhere.
Definition user3 : @Env json := world 3 (10 * hour) inr true down nowhere.

End Sample.

(** * Properties *)

(** ** Traces *)

Section Traces.
Context {Value : Type}.
Implicit Types (t : list (@Event Value)) (p : @Event Value -> bool).

Lemma count_app p t t' : count p (t ++ t') = (count p t + count p t')%nat.
Proof. unfold count. by rewrite List.filter_app, length_app. Qed.

Lemma count_cons p e t :
  count p (e :: t) = ((if p e then 1 else 0) + count p t)%nat.
Proof. unfold count. simpl. by destruct (p e). Qed.

Lemma count_le_length p t : (count p t <= length t)%nat.
Proof. unfold count. apply List.filter_length_le. Qed.

Lemma count_0_forall p t : count p t = 0%nat <-> forall e, e ∈ t -> p e = false.
Proof.
  unfold count. induction t as [|e t IH]; simpl.
  - split; [intros _ e He; inversion He | done].
  - destruct (p e) eqn:Hp; simpl.
    + split; [done | intros H; specialize (H e (list_elem_of_here _ _)); congruence].
    + rewrite IH. split.
      * intros H e' He'. apply elem_of_cons in He' as [->|He']; auto.
      * intros H e' He'. apply H. by apply list_elem_of_further.
Qed.

Lemma settled_app_quiet t t' :
  (forall d err, EDecode d err ∈ t -> size d = 0%nat) ->
  settled (t ++ t') = settled t'.
Proof.
  induction t as [|e t IH]; intros H; [done|].
  assert (settled (t ++ t') = settled t') as IH'.
  { apply IH. intros d err Hd. eapply H. by apply list_elem_of_further. }
  destruct e; simpl; try done.
  rewrite (H d err (list_elem_of_here _ _)). done.
Qed.

Lemma settled_split t t1 t2 d err :
  settled t = true -> t = t1 ++ EDecode d err :: t2 -> size d <> 0%nat ->
  forall e, e ∈ t2 -> is_fetch e = false.
Proof.
  revert t. induction t1 as [|e1 t1 IH]; intros t Hs -> Hd e He; simpl in Hs.
  - destruct (size d =? 0)%nat eqn:Hz; [apply Nat.eqb_eq in Hz; done|].
    unfold quiet in Hs. rewrite forallb_forall in Hs. apply negb_true_iff, Hs.
    by apply list_elem_of_In.
  - assert (quiet (t1 ++ EDecode d err :: t2) = true -> False) as Hno.
    { unfold quiet. rewrite forallb_forall. intros Hall.
      specialize (Hall (EDecode d err)). simpl in Hall.
      assert (false = true) by (apply Hall, in_or_app; right; by left). done. }
    destruct e1; try (by eapply IH).
    destruct (size d0 =? 0)%nat; [by eapply IH | by destruct (Hno Hs)].
Qed.

End Traces.

(** ** The cache scan *)

Section Scan.
Context {Value : Type}.
Variables (cfg : Config) (E : @Env Value) (fs : FS).

Local Abbreviation key_of := (cacheFile cfg E).
Local Abbreviation stat_of := (fun Arg => @EStat Value (cacheFile cfg E Arg)).
Local Abbreviation hit_of :=
  (fun Arg d err => [@EStat Value (cacheFile cfg E Arg);
                     EReadFile (cacheFile cfg E Arg) true; EDecode d err]).

(** The scan in terms of what each iteration finds. *)
Lemma cache_scan_cons i Arg rest cfs (dat : gmap string Value) :
  cache_scan cfg E fs i (Arg :: rest) cfs dat =
    match cache_lookup cfg E fs i Arg with
    | Some byt =>
      (hit_of Arg (fst (json_Unmarshal E byt dat)) (snd (json_Unmarshal E byt dat)),
       <[i := key_of Arg]> cfs, fst (json_Unmarshal E byt dat))
    | None =>
      let r := cache_scan cfg E fs (S i) rest (<[i := key_of Arg]> cfs) dat in
      (probe cfg E fs i Arg ++ r.1.1, r.1.2, r.2)
    end.
Proof.
  simpl. unfold cache_lookup, probe.
  destruct (cache_scan cfg E fs (S i) rest _ dat) as [[t c] d].
  destruct (os_Stat fs (key_of Arg)); [|done].
  destruct (negb (flush cfg) && useCache cfg && age_test cfg E i z); [|done].
  destruct (ioutil_ReadFile fs (key_of Arg)); [|done].
  by destruct (json_Unmarshal E s dat).
Qed.

(** A file is only read when caching is on and force refresh is off. *)
Lemma probe_off i Arg :
  flush cfg = true \/ useCache cfg = false ->
  probe cfg E fs i Arg = [EStat (key_of Arg)].
Proof.
  intros H. unfold probe. destruct (os_Stat fs _); [|done].
  destruct H as [-> | ->]; [done|]. by destruct (flush cfg).
Qed.

Lemma probes_off i Args :
  flush cfg = true \/ useCache cfg = false ->
  probes cfg E fs i Args = map stat_of Args.
Proof.
  intros H. revert i. induction Args as [|a Args IH]; intros i; [done|].
  simpl. by rewrite probe_off, IH.
Qed.

Lemma probe_in i Arg e :
  e ∈ probe cfg E fs i Arg ->
  e = EStat (key_of Arg) \/ e = EReadFile (key_of Arg) false.
Proof.
  unfold probe.
  destruct (os_Stat fs _);
    [destruct (negb (flush cfg) && useCache cfg && age_test cfg E i z)|];
    rewrite ?elem_of_cons, elem_of_nil; intros Hin;
    repeat destruct Hin as [Hin|Hin]; auto; done.
Qed.

Lemma probe_events i Arg e : e ∈ probe cfg E fs i Arg -> is_scan e = true.
Proof. by intros [-> | ->]%probe_in. Qed.

(** The test of the scan, spelled out. *)
Lemma cache_lookup_Some i Arg byt :
  cache_lookup cfg E fs i Arg = Some byt <->
  exists f, fs !! key_of Arg = Some f /\ flush cfg = false /\ useCache cfg = true
    /\ (f_mtime f < time_Now E i + maxAge cfg)%Z
    /\ f_readable f = true /\ f_data f = byt.
Proof.
  unfold cache_lookup, os_Stat, ioutil_ReadFile, age_test.
  destruct (fs !! key_of Arg) as [f|]; simpl; [|split; [done|by intros (? & ? & _)]].
  destruct (flush cfg), (useCache cfg); simpl;
    try (split; [done|intros (? & ? & ? & ? & _); done]).
  destruct (Z.ltb_spec (f_mtime f) (time_Now E i + maxAge cfg)); simpl.
  - destruct (f_readable f) eqn:Hr.
    + split; [intros [= <-]; eauto 10|].
      intros (f' & [= <-] & _ & _ & _ & _ & <-). done.
    + split; [done|]. intros (f' & [= <-] & _ & _ & _ & ? & _). congruence.
  - split; [done|]. intros (f' & [= <-] & _ & _ & ? & _). lia.
Qed.

Lemma cache_lookup_unreadable i Arg :
  ioutil_ReadFile fs (key_of Arg) = None -> cache_lookup cfg E fs i Arg = None.
Proof.
  intros Hr. unfold cache_lookup. rewrite Hr.
  destruct (os_Stat fs _); [|done]. by case_match.
Qed.

Lemma cache_lookup_off i Arg :
  flush cfg = true \/ useCache cfg = false -> cache_lookup cfg E fs i Arg = None.
Proof.
  intros H. unfold cache_lookup. destruct (os_Stat fs _); [|done].
  destruct H as [-> | ->]; [done|]. by destruct (flush cfg).
Qed.

(** Nothing usable: every file is probed, none is read. *)
Lemma cache_scan_miss Args i cfs (dat : gmap string Value) :
  (forall k b, Args !! k = Some b -> cache_lookup cfg E fs (i + k) b = None) ->
  cache_scan cfg E fs i Args cfs dat =
    (probes cfg E fs i Args, fill cfg E i Args cfs, dat).
Proof.
  revert i cfs. induction Args as [|a Args IH]; intros i cfs H; [done|].
  rewrite cache_scan_cons. specialize (H 0%nat a eq_refl) as H0.
  rewrite Nat.add_0_r in H0. rewrite H0. rewrite IH; [done|].
  intros k b Hk. specialize (H (S k) b Hk). by rewrite Nat.add_succ_r in H.
Qed.

(** The first usable file ends the scan, whatever it decodes to. *)
Lemma cache_scan_hit pre a post byt i cfs (dat : gmap string Value) :
  (forall k b, pre !! k = Some b -> cache_lookup cfg E fs (i + k) b = None) ->
  cache_lookup cfg E fs (i + length pre) a = Some byt ->
  cache_scan cfg E fs i (pre ++ a :: post) cfs dat =
    (probes cfg E fs i pre ++
       hit_of a (fst (json_Unmarshal E byt dat)) (snd (json_Unmarshal E byt dat)),
     fill cfg E i (pre ++ [a]) cfs, fst (json_Unmarshal E byt dat)).
Proof.
  revert i cfs. induction pre as [|b pre IH]; intros i cfs H Ha; simpl in Ha.
  - rewrite Nat.add_0_r in Ha. simpl app. rewrite cache_scan_cons, Ha. done.
  - simpl app. rewrite cache_scan_cons. specialize (H 0%nat b eq_refl) as H0.
    rewrite Nat.add_0_r in H0. rewrite H0. rewrite IH.
    + simpl. by rewrite <- app_assoc.
    + intros k c Hk. specialize (H (S k) c Hk). by rewrite Nat.add_succ_r in H.
    + by rewrite Nat.add_succ_r in Ha.
Qed.

(** The scan only probes, reads and decodes. *)
Lemma cache_scan_events i Args cfs (dat : gmap string Value) e :
  e ∈ (cache_scan cfg E fs i Args cfs dat).1.1 -> is_scan e = true.
Proof.
  revert i cfs. induction Args as [|a Args IH]; intros i cfs.
  { by intros ?%elem_of_nil. }
  rewrite cache_scan_cons. destruct (cache_lookup cfg E fs i a); simpl.
  - rewrite !elem_of_cons, elem_of_nil. by intros [->|[->|[->|[]]]].
  - rewrite elem_of_app. intros [He|He]; [by eapply probe_events | by eapply IH].
Qed.

(** All slots of [cacheFiles] are set by a scan that runs to the end. *)
Lemma fill_all Args pre :
  fill cfg E (length pre) Args (pre ++ replicate (length Args) "") =
    pre ++ map key_of Args.
Proof.
  revert pre. induction Args as [|a Args IH]; intros pre; [done|].
  simpl. rewrite insert_app_r_alt, Nat.sub_diag by done. simpl.
  specialize (IH (pre ++ [key_of a])).
  rewrite length_app, Nat.add_1_r, <- !app_assoc in IH. done.
Qed.

(** The slots of [cacheFiles] past the targets that were scanned keep
    what they held: the empty string, after a [break]. *)
Lemma fill_later i Args cfs k :
  (i + length Args <= k)%nat -> nth k (fill cfg E i Args cfs) "" = nth k cfs "".
Proof.
  revert i cfs. induction Args as [|a Args IH]; intros i cfs Hk; [done|].
  simpl in *. rewrite IH by lia.
  destruct (decide (k < length cfs)%nat) as [Hlt|Hge].
  - destruct (lookup_lt_is_Some_2 cfs k Hlt) as [x Hx].
    rewrite (nth_lookup_Some _ _ _ x); [by rewrite (nth_lookup_Some _ _ _ x)|].
    rewrite list_lookup_insert_ne by lia. done.
  - rewrite !nth_overflow; [done | lia | rewrite length_insert; lia].
Qed.

Lemma scan_later_slots pre a post byt k :
  (forall j b, pre !! j = Some b -> cache_lookup cfg E fs j b = None) ->
  cache_lookup cfg E fs (length pre) a = Some byt ->
  (length pre < k)%nat ->
  nth k (scan cfg E fs (pre ++ a :: post)).1.2 "" = "".
Proof.
  intros Hmiss Hhit Hk. unfold scan.
  rewrite (cache_scan_hit pre a post byt 0) by done. simpl.
  rewrite fill_later by (rewrite length_app; simpl; lia).
  destruct (decide (k < length (pre ++ a :: post))%nat) as [Hlt|Hge].
  - apply nth_lookup_Some. by apply lookup_replicate_2.
  - apply nth_overflow. rewrite length_replicate. lia.
Qed.

End Scan.

(** A write that fails leaves the file system as it was. *)
Lemma ioutil_WriteFile_err {Value : Type} (E : @Env Value) fs path data t :
  snd (ioutil_WriteFile E fs path data t) = true ->
  fst (ioutil_WriteFile E fs path data t) = fs.
Proof. unfold ioutil_WriteFile. by destruct (_ && _). Qed.

(** A write that succeeds leaves the bytes under the path. *)
Lemma ioutil_WriteFile_ok {Value : Type} (E : @Env Value) fs path data t :
  path <> "" -> os_writable E path = true ->
  ioutil_WriteFile E fs path data t = (<[path := File data t true]> fs, false).
Proof.
  intros Hp Hw. unfold ioutil_WriteFile.
  apply String.eqb_neq in Hp. by rewrite Hp, Hw.
Qed.

(** ** One attempt *)

Section Attempt.
Context {Value : Type}.
Variables (cfg : Config) (E : @Env Value).
Variables (Args urls cacheFiles : list string).

Local Abbreviation att := (attempt cfg E Args urls cacheFiles).
Local Abbreviation req := (@request_of Value Args urls).

Lemma debug_headers_stdout j e :
  e ∈ debug_headers cfg E j -> exists s, e = EStdout s.
Proof.
  unfold debug_headers. destruct (debug cfg); [|by intros ?%elem_of_nil].
  intros (kv & -> & _)%list_elem_of_fmap. eauto.
Qed.

Lemma filter_debug_headers (p : @Event Value -> bool) j :
  (forall s, p (EStdout s) = false) -> List.filter p (debug_headers cfg E j) = [].
Proof.
  intros Hp. unfold debug_headers. destruct (debug cfg); [|done].
  induction (range_Headers E j) as [|kv l IH]; [done|].
  simpl. by rewrite Hp.
Qed.

(** The events of an attempt that gets as far as its request. *)
Lemma attempt_requests j dat fs :
  List.filter is_request (fst (att j dat fs)) =
    if post_reader_ok cfg fs
       && http_NewRequest E (method cfg) (nth (j mod length Args) urls "")
    then [req j] else [].
Proof.
  unfold attempt.
  destruct (post_reader_ok cfg fs); [|done]. simpl.
  destruct (http_NewRequest E _ _); [|done]. simpl.
  repeat case_match; simpl;
    rewrite ?List.filter_app, filter_debug_headers by done; simpl; done.
Qed.

Lemma attempt_no_sleep j dat fs :
  List.filter is_sleep (fst (att j dat fs)) = [].
Proof.
  unfold attempt.
  repeat case_match; simpl;
    rewrite ?List.filter_app, ?filter_debug_headers by done; simpl; done.
Qed.

Lemma attempt_no_read j dat fs :
  List.filter is_cache_read (fst (att j dat fs)) = [].
Proof.
  unfold attempt.
  repeat case_match; simpl;
    rewrite ?List.filter_app, ?filter_debug_headers by done; simpl; done.
Qed.

(** An attempt that gets as far as its request opens with it. *)
Lemma attempt_prefix j dat fs :
  post_reader_ok cfg fs = true ->
  http_NewRequest E (method cfg) (nth (j mod length Args) urls "") = true ->
  exists rest, fst (att j dat fs) = debug_headers cfg E j ++ req j :: rest.
Proof.
  intros Hp Hn. unfold attempt. fold (req j). rewrite Hp, Hn. simpl.
  destruct (client_Do E j _) as [msg| |byt]; simpl.
  - rewrite <- app_assoc. simpl. eauto.
  - eauto.
  - destruct (json_Unmarshal E byt dat) as [d1 err].
    destruct err; [destruct (debug cfg)|destruct (useCache cfg)]; simpl;
      rewrite <- ?app_assoc; simpl; eauto.
    destruct (ioutil_WriteFile _ _ _ _ _) as [fs' werr].
    destruct (werr && debug cfg); simpl; rewrite <- !app_assoc; simpl; eauto.
Qed.

(** An attempt that does not end the process has sent its request. *)
Lemma attempt_live j dat fs :
  snd (att j dat fs) <> Fatal ->
  post_reader_ok cfg fs
  && http_NewRequest E (method cfg) (nth (j mod length Args) urls "") = true.
Proof.
  unfold attempt.
  destruct (post_reader_ok cfg fs); [|done]. simpl.
  destruct (http_NewRequest E _ _); done.
Qed.

(** An attempt whose request is answered with a body. *)
Lemma attempt_body j dat fs byt :
  let i := (j mod length Args)%nat in
  post_reader_ok cfg fs = true ->
  http_NewRequest E (method cfg) (nth i urls "") = true ->
  client_Do E j (nth i urls "") = Body byt ->
  att j dat fs =
    let d' := fst (json_Unmarshal E byt dat) in
    let err := snd (json_Unmarshal E byt dat) in
    let t1 := debug_headers cfg E j ++ [req j; EDecode d' err] in
    if err then (t1, if debug cfg then Fatal else Continue d')
    else if negb (useCache cfg) then (t1, Break d' fs)
    else
      let path := nth i cacheFiles "" in
      let w := ioutil_WriteFile E fs path byt (write_time E j) in
      (t1 ++ [EWriteFile path byt (negb (snd w))],
       if snd w && debug cfg then Fatal else Break d' (fst w)).
Proof.
  intros i Hp Hn Hc. unfold attempt. fold i. rewrite Hp, Hn, Hc. simpl.
  destruct (json_Unmarshal E byt dat) as [d' err]. simpl.
  unfold request_of. fold i. rewrite <- !app_assoc. simpl.
  destruct err; [by destruct (debug cfg)|].
  destruct (useCache cfg); [|done]. simpl.
  destruct (ioutil_WriteFile _ _ _ _ _) as [fs' werr]. simpl.
  rewrite <- !app_assoc. simpl. by destruct (werr && debug cfg).
Qed.

(** An attempt writes nowhere but to the cache file of its target. *)
Lemma attempt_write_in j dat fs path byt ok :
  EWriteFile path byt ok ∈ fst (att j dat fs) ->
  path = nth (j mod length Args) cacheFiles "" /\ useCache cfg = true
  /\ client_Do E j (nth (j mod length Args) urls "") = Body byt.
Proof.
  unfold attempt.
  repeat case_match; simpl; subst;
    intros Hin; set_unfold in Hin; destruct_or?; simplify_eq;
    try (by apply debug_headers_stdout in Hin as [? [=]]).
  all: split_and!; try done; by destruct (useCache cfg).
Qed.

(** The headers and the request that open an attempt decode nothing. *)
Lemma settled_request j (t : list (@Event Value)) :
  settled (debug_headers cfg E j ++ req j :: t) = settled t.
Proof.
  change (req j :: t) with ([req j] ++ t). rewrite app_assoc.
  apply settled_app_quiet. intros d err.
  rewrite elem_of_app, list_elem_of_singleton.
  intros [H|H]; [by apply debug_headers_stdout in H as [? [=]] | done].
Qed.

(** Decodings in the trace of an attempt entered with an empty [dat]:
    after a failed attempt the trace continued by [rest] is settled when
    [dat] is still empty and [rest] is settled, or when [rest] holds no
    fetch. *)
Lemma attempt_settled j dat fs rest d' :
  size dat = 0%nat ->
  snd (att j dat fs) = Continue d' ->
  settled (fst (att j dat fs) ++ rest) =
    if (size d' =? 0)%nat then settled rest
    else forallb (fun e => negb (is_fetch e)) rest.
Proof.
  intros Hd. unfold attempt. fold (req j).
  destruct (post_reader_ok cfg fs); [|done]. simpl.
  destruct (http_NewRequest E _ _); [|done]. simpl.
  destruct (client_Do E j _) as [msg| |byt]; simpl.
  - intros [= <-]. rewrite <- !app_assoc. simpl. rewrite settled_request.
    rewrite Hd. simpl. by destruct (debug cfg).
  - intros [= <-]. rewrite <- !app_assoc. simpl. rewrite settled_request.
    by rewrite Hd.
  - destruct (json_Unmarshal E byt dat) as [d1 err].
    destruct err; [destruct (debug cfg); [done|]|].
    + simpl. intros [= <-]. rewrite <- !app_assoc. simpl.
      by rewrite settled_request.
    + destruct (useCache cfg); simpl; [|done].
      destruct (ioutil_WriteFile _ _ _ _ _) as [fs' werr].
      by destruct (werr && debug cfg).
Qed.

(** An attempt that ends the loop or the process leaves a settled trace. *)
Lemma attempt_settled_last j dat fs :
  size dat = 0%nat ->
  (forall d', snd (att j dat fs) <> Continue d') ->
  settled (fst (att j dat fs)) = true.
Proof.
  intros Hd. unfold attempt. fold (req j).
  destruct (post_reader_ok cfg fs); [|done]. simpl.
  destruct (http_NewRequest E _ _); [|done]. simpl.
  destruct (client_Do E j _) as [msg| |byt]; simpl.
  - intros Hc. by destruct (Hc dat).
  - intros Hc. by destruct (Hc dat).
  - destruct (json_Unmarshal E byt dat) as [d1 err].
    destruct err; [destruct (debug cfg)|].
    + intros _. simpl. rewrite <- !app_assoc. simpl. rewrite settled_request.
      simpl. by case_match.
    + intros Hc. by destruct (Hc d1).
    + intros _. destruct (useCache cfg); simpl.
      * destruct (ioutil_WriteFile _ _ _ _ _) as [fs' werr].
        assert (forall s : @Step Value,
          settled (((debug_headers cfg E j ++ [req j]) ++ [EDecode d1 false]) ++
                   [EWriteFile (nth (j mod length Args) cacheFiles "") byt
                      (negb werr)], s).1 = true) as Hs.
        { intros s. simpl. rewrite <- !app_assoc. simpl.
          rewrite settled_request. simpl. by case_match. }
        destruct (werr && debug cfg); apply Hs.
      * rewrite <- !app_assoc. simpl. rewrite settled_request.
        simpl. by case_match.
Qed.

End Attempt.

(** ** The retry loop *)

Section Retry.
Context {Value : Type}.
Variables (cfg : Config) (E : @Env Value).
Variables (Args urls cacheFiles : list string).

Local Abbreviation N := (length Args).
Local Abbreviation att := (attempt cfg E Args urls cacheFiles).
Local Abbreviation loop := (retry cfg E Args urls cacheFiles).
Local Abbreviation pace := (@pacing Value cfg Args).
Local Abbreviation req := (@request_of Value Args urls).

Lemma pacing_no_request j : List.filter is_request (pace j) = [].
Proof. unfold pacing. by case_match. Qed.

Lemma pacing_sleep j : List.filter is_sleep (pace j) = pace j.
Proof. unfold pacing. by case_match. Qed.

Lemma pacing_in j e :
  e ∈ pace j -> e = ESleep j (delay cfg) /\ (j mod N = N - 1)%nat.
Proof.
  unfold pacing. case_match eqn:Hm; [|by intros ?%elem_of_nil].
  intros ->%list_elem_of_singleton. split; [done|].
  apply Nat.eqb_eq in Hm. destruct (decide (N = 0%nat)) as [HN|HN].
  - rewrite HN in *. simpl in *. done.
  - by rewrite Nat.Div0.mod_mod in Hm.
Qed.

(** The loop does nothing once [dat] is not empty. *)
Lemma retry_nonempty n j dat fs :
  size dat <> 0%nat -> loop n j dat fs = ([], LDone dat fs).
Proof.
  intros H. destruct n; [done|]. simpl.
  by apply Nat.eqb_neq in H as ->.
Qed.

(** A successful attempt is the last thing the loop does. *)
Lemma retry_break n j dat fs t d' fs' :
  size dat = 0%nat -> N <> 0%nat -> att j dat fs = (t, Break d' fs') ->
  loop (S n) j dat fs = (t, LDone d' fs').
Proof.
  intros Hd HN Ha. simpl. rewrite Hd. simpl.
  destruct N; [done|]. by rewrite Ha.
Qed.

Lemma retry_fatal n j dat fs t :
  size dat = 0%nat -> N <> 0%nat -> att j dat fs = (t, Fatal) ->
  loop (S n) j dat fs = (t, LAbort Exit1).
Proof.
  intros Hd HN Ha. simpl. rewrite Hd. simpl.
  destruct N; [done|]. by rewrite Ha.
Qed.

(** A failed attempt is followed by the pacing test and the next one. *)
Lemma retry_continue n j dat fs t d' :
  size dat = 0%nat -> N <> 0%nat -> att j dat fs = (t, Continue d') ->
  loop (S n) j dat fs =
    (t ++ pace j ++ fst (loop n (S j) d' fs), snd (loop n (S j) d' fs)).
Proof.
  intros Hd HN Ha. simpl. rewrite Hd. simpl.
  destruct N; [done|]. rewrite Ha. by destruct (retry _ _ _ _ _ n _ _ _).
Qed.

(** The three ways through one iteration. *)
Lemma retry_S_cases n j dat fs :
  size dat = 0%nat -> N <> 0%nat ->
  (exists t, att j dat fs = (t, Fatal)
             /\ loop (S n) j dat fs = (t, LAbort Exit1))
  \/ (exists t d' fs', att j dat fs = (t, Break d' fs')
             /\ loop (S n) j dat fs = (t, LDone d' fs'))
  \/ (exists t d', att j dat fs = (t, Continue d')
             /\ loop (S n) j dat fs =
                (t ++ pace j ++ fst (loop n (S j) d' fs),
                 snd (loop n (S j) d' fs))).
Proof.
  intros Hd HN. destruct (att j dat fs) as [t [|d' fs'|d']] eqn:Ha.
  - left. eauto using retry_fatal.
  - right; left. eauto 6 using retry_break.
  - right; right. eauto 6 using retry_continue.
Qed.

(** What the loop may contain: requests and delays of the attempts from
    [j] on, each request to the target after its index. *)
Lemma retry_request_in n j dat fs e :
  e ∈ fst (loop n j dat fs) -> is_request e = true ->
  exists k, (j <= k < j + n)%nat /\ e = req k.
Proof.
  revert j dat. induction n as [|n IH]; intros j dat He Hr.
  { by apply elem_of_nil in He. }
  destruct (decide (size dat = 0%nat)) as [Hd|Hd];
    [|rewrite retry_nonempty in He by done; by apply elem_of_nil in He].
  destruct (decide (N = 0%nat)) as [HN|HN].
  { simpl in He. rewrite Hd, HN in He. by apply elem_of_nil in He. }
  assert (forall t s, att j dat fs = (t, s) -> e ∈ t -> e = req j) as Hatt.
  { intros t s Ha Ht.
    assert (In e (List.filter is_request t)) as Hin.
    { apply filter_In. split; [by apply list_elem_of_In | done]. }
    pose proof (attempt_requests cfg E Args urls cacheFiles j dat fs) as Hf.
    rewrite Ha in Hf. simpl in Hf. rewrite Hf in Hin.
    case_match; [|done]. destruct Hin as [<-|[]]. done. }
  destruct (retry_S_cases n j dat fs Hd HN)
    as [(t & Ha & Hq)|[(t & d' & fs' & Ha & Hq)|(t & d' & Ha & Hq)]];
    rewrite Hq in He; simpl in He.
  - exists j. split; [lia | eauto].
  - exists j. split; [lia | eauto].
  - apply elem_of_app in He as [He|He]; [exists j; split; [lia | eauto]|].
    apply elem_of_app in He as [He|He].
    + apply pacing_in in He as [-> _]. done.
    + destruct (IH _ _ He Hr) as (k & Hk & ->). exists k. split; [lia|done].
Qed.

Lemma retry_sleep_in n j dat fs k d :
  ESleep k d ∈ fst (loop n j dat fs) ->
  (j <= k < j + n)%nat /\ (k mod N = N - 1)%nat /\ d = delay cfg.
Proof.
  revert j dat. induction n as [|n IH]; intros j dat He.
  { by apply elem_of_nil in He. }
  destruct (decide (size dat = 0%nat)) as [Hd|Hd];
    [|rewrite retry_nonempty in He by done; by apply elem_of_nil in He].
  destruct (decide (N = 0%nat)) as [HN|HN].
  { simpl in He. rewrite Hd, HN in He. by apply elem_of_nil in He. }
  assert (forall t s, att j dat fs = (t, s) -> ESleep k d ∈ t -> False) as Hatt.
  { intros t s Ha Ht.
    assert (In (ESleep k d) (List.filter is_sleep t)) as Hin.
    { apply filter_In. split; [by apply list_elem_of_In | done]. }
    pose proof (attempt_no_sleep cfg E Args urls cacheFiles j dat fs) as Hf.
    rewrite Ha in Hf. simpl in Hf. by rewrite Hf in Hin. }
  destruct (retry_S_cases n j dat fs Hd HN)
    as [(t & Ha & Hq)|[(t & d' & fs' & Ha & Hq)|(t & d' & Ha & Hq)]];
    rewrite Hq in He; simpl in He.
  - by destruct (Hatt _ _ Ha He).
  - by destruct (Hatt _ _ Ha He).
  - apply elem_of_app in He as [He|He]; [by destruct (Hatt _ _ Ha He)|].
    apply elem_of_app in He as [He|He].
    + apply pacing_in in He as [[= -> ->] Hm]. split; [lia|done].
    + destruct (IH _ _ He) as (Hk & Hm & ->). split; [lia|done].
Qed.

(** The loop is made of attempts and delays. *)
Lemma retry_in n j dat fs e :
  e ∈ fst (loop n j dat fs) ->
  (exists k d, e ∈ fst (att k d fs)) \/ is_sleep e = true.
Proof.
  revert j dat. induction n as [|n IH]; intros j dat He.
  { by apply elem_of_nil in He. }
  destruct (decide (size dat = 0%nat)) as [Hd|Hd];
    [|rewrite retry_nonempty in He by done; by apply elem_of_nil in He].
  destruct (decide (N = 0%nat)) as [HN|HN].
  { simpl in He. rewrite Hd, HN in He. by apply elem_of_nil in He. }
  destruct (retry_S_cases n j dat fs Hd HN)
    as [(t & Ha & Hq)|[(t & d' & fs' & Ha & Hq)|(t & d' & Ha & Hq)]];
    rewrite Hq in He; simpl in He.
  - left. exists j, dat. by rewrite Ha.
  - left. exists j, dat. by rewrite Ha.
  - apply elem_of_app in He as [He|He]; [left; exists j, dat; by rewrite Ha|].
    apply elem_of_app in He as [He|He]; [|by eapply IH].
    apply pacing_in in He as [-> _]. by right.
Qed.

(** The loop opens with the request of its first attempt. *)
Lemma retry_prefix n j dat fs :
  size dat = 0%nat -> N <> 0%nat ->
  post_reader_ok cfg fs = true ->
  http_NewRequest E (method cfg) (nth (j mod N) urls "") = true ->
  exists rest, fst (loop (S n) j dat fs) = debug_headers cfg E j ++ req j :: rest.
Proof.
  intros Hd HN Hp Hn.
  destruct (attempt_prefix cfg E Args urls cacheFiles j dat fs Hp Hn) as [rest Hr].
  destruct (retry_S_cases n j dat fs Hd HN)
    as [(t & Ha & Hq)|[(t & d' & fs' & Ha & Hq)|(t & d' & Ha & Hq)]];
    rewrite Hq; rewrite Ha in Hr; simpl in *; subst t; eauto.
  rewrite <- app_assoc. simpl. eauto.
Qed.

Lemma retry_requests_le n j dat fs :
  (count is_request (fst (loop n j dat fs)) <= n)%nat.
Proof.
  revert j dat. induction n as [|n IH]; intros j dat; [done|].
  destruct (decide (size dat = 0%nat)) as [Hd|Hd];
    [|rewrite retry_nonempty by done; simpl; unfold count; simpl; lia].
  destruct (decide (N = 0%nat)) as [HN|HN].
  { simpl. rewrite Hd, HN. simpl. unfold count; simpl; lia. }
  assert (forall t s, att j dat fs = (t, s) -> (count is_request t <= 1)%nat) as Hatt.
  { intros t s Ha. unfold count.
    pose proof (attempt_requests cfg E Args urls cacheFiles j dat fs) as Hf.
    rewrite Ha in Hf. simpl in Hf. rewrite Hf. case_match; simpl; lia. }
  destruct (retry_S_cases n j dat fs Hd HN)
    as [(t & Ha & ->)|[(t & d' & fs' & Ha & ->)|(t & d' & Ha & ->)]]; simpl.
  - specialize (Hatt _ _ Ha). lia.
  - specialize (Hatt _ _ Ha). lia.
  - rewrite !count_app. specialize (Hatt _ _ Ha). specialize (IH (S j) d').
    unfold count at 2. rewrite pacing_no_request. simpl. lia.
Qed.

(** When every attempt fails the loop goes through all of them. *)
Lemma retry_all_fail n j dat fs :
  N <> 0%nat -> size dat = 0%nat -> all_fail cfg E Args urls cacheFiles (j + n) fs ->
  let r := loop n j dat fs in
  (exists d', snd r = LDone d' fs /\ size d' = 0%nat)
  /\ List.filter is_request (fst r) = map req (seq j n)
  /\ List.filter is_sleep (fst r) = flat_map pace (seq j n).
Proof.
  intros HN. revert j dat. induction n as [|n IH]; intros j dat Hd Hall; simpl.
  { eauto. }
  destruct (Hall j dat) as (t & d' & Ha & Hd'); [lia | done |].
  rewrite Hd. simpl. destruct N eqn:HNe; [done|]. rewrite <- HNe in *. rewrite Ha.
  destruct (IH (S j) d' Hd') as ((d'' & Hr & Hd'') & Hreq & Hsl).
  { intros k d Hk. apply Hall. lia. }
  destruct (retry _ _ _ _ _ n _ _ _) as [t' r'] eqn:Hret.
  simpl in *. split; [eauto|].
  pose proof (attempt_requests cfg E Args urls cacheFiles j dat fs) as Hf.
  pose proof (attempt_live cfg E Args urls cacheFiles j dat fs) as Hl.
  pose proof (attempt_no_sleep cfg E Args urls cacheFiles j dat fs) as Hs.
  rewrite Ha in Hf, Hl, Hs. simpl in *. rewrite Hl in Hf by done.
  rewrite !List.filter_app, Hf, Hs, pacing_no_request, pacing_sleep, Hreq, Hsl.
  done.
Qed.

(** One delay for every full pass over the targets. *)
Lemma div_succ (m n : nat) :
  n <> 0%nat ->
  (S m / n = m / n + (if (m mod n =? n - 1)%nat then 1 else 0))%nat.
Proof.
  intros Hn. pose proof (Nat.div_mod m n Hn) as Hm.
  pose proof (Nat.mod_upper_bound m n Hn) as Hlt.
  destruct (m mod n =? n - 1)%nat eqn:He.
  - apply Nat.eqb_eq in He. symmetry.
    apply (Nat.div_unique _ _ _ 0%nat); [lia|]. nia.
  - apply Nat.eqb_neq in He. symmetry.
    apply (Nat.div_unique _ _ _ (S (m mod n))); [lia|]. nia.
Qed.

Lemma pacing_count m :
  N <> 0%nat -> length (flat_map pace (seq 0 m)) = (m / N)%nat.
Proof.
  intros HN. induction m as [|m IH]; [by rewrite Nat.Div0.div_0_l|].
  rewrite seq_S, flat_map_app, length_app, IH, div_succ by done. simpl.
  unfold pacing. rewrite Nat.Div0.mod_mod.
  by destruct (m mod N =? N - 1)%nat.
Qed.

End Retry.

(** ** The output loop *)

Section Output.
Context {Value : Type}.
Variables (cfg : Config) (E : @Env Value).

Local Abbreviation out := (outputFile cfg).
Local Abbreviation line_of := (render cfg E).
Local Abbreviation dump := (debug_value cfg E).
Local Abbreviation yield := (@Yield Value).

Lemma quiet_app (t t' : list (@Event Value)) :
  quiet (t ++ t') = quiet t && quiet t'.
Proof. apply forallb_app. Qed.

Lemma quiet_outputs (t : list (@Event Value)) :
  (forall e, e ∈ t -> is_output e = true) -> quiet t = true.
Proof.
  intros H. apply forallb_forall. intros e He%list_elem_of_In.
  specialize (H e He). by destruct e.
Qed.

Lemma settled_then_quiet (t t' : list (@Event Value)) :
  settled t = true -> quiet t' = true -> settled (t ++ t') = true.
Proof.
  induction t as [|e t IH]; intros Hs Hq; simpl.
  - clear Hs. induction t' as [|e t' IH]; [done|].
    simpl in Hq. apply andb_true_iff in Hq as [He Hq].
    destruct e; simpl; auto. done.
  - destruct e; simpl in *; auto.
    destruct (size d =? 0)%nat; [auto|]. rewrite quiet_app, Hs. done.
Qed.

Lemma dump_output v e : e ∈ dump v -> is_output e = true.
Proof.
  unfold debug_value. destruct (debug cfg); [|by intros ?%elem_of_nil].
  by intros ->%list_elem_of_singleton.
Qed.

Lemma dump_no_create v : count is_create (dump v) = 0%nat.
Proof. unfold debug_value. by destruct (debug cfg). Qed.

(** The output loop only creates files and prints. *)
Lemma emit_output k rs fs e :
  e ∈ trace (emit cfg E k rs fs) -> is_output e = true.
Proof.
  revert k fs. induction rs as [|[v|msg] rs IH]; intros k fs; simpl;
    [by intros ?%elem_of_nil | | by intros ?%elem_of_nil].
  destruct (out =? ""); simpl.
  - rewrite elem_of_app, elem_of_cons.
    intros [H|[->|H]]; [by eapply dump_output | done | by eapply IH].
  - destruct (os_Create E fs out _); simpl.
    + rewrite elem_of_app, !elem_of_cons.
      intros [H|[->|[->|H]]]; [by eapply dump_output | done | done | by eapply IH].
    + rewrite elem_of_app, list_elem_of_singleton.
      intros [H| ->]; [by eapply dump_output | done].
Qed.

(** With no output file every value is printed, in order. *)
Lemma emit_stdout k vs fs :
  out = "" ->
  emit cfg E k (map yield vs) fs =
    mkRun (flat_map (fun v => dump v ++ [EStdout (line_of v)]) vs) fs Exit0.
Proof.
  intros Ho. revert k. induction vs as [|v vs IH]; intros k; [done|].
  simpl. rewrite Ho. simpl. rewrite IH. simpl. by rewrite <- app_assoc.
Qed.

Lemma os_Create_ok fs t :
  out <> "" -> os_writable E out = true ->
  os_Create E fs out t = Some (<[out := File "" t true]> fs).
Proof.
  intros Ho Hw. unfold os_Create. apply String.eqb_neq in Ho. by rewrite Ho, Hw.
Qed.

(** With an output file, every value creates it afresh and the file is
    left holding the line of the last one. *)
Lemma emit_file k vs v fs :
  out <> "" -> os_writable E out = true ->
  let r := emit cfg E k (map yield (vs ++ [v])) fs in
  exit r = Exit0
  /\ f_data <$> fs_final r !! out = Some (line_of v)
  /\ count is_create (trace r) = length (vs ++ [v])
  /\ count is_stdout (trace r) = count is_stdout (flat_map dump (vs ++ [v])).
Proof.
  intros Ho Hw. revert k fs.
  pose proof Ho as Hne. apply String.eqb_neq in Hne.
  induction vs as [|v0 vs IH]; intros k fs; simpl.
  - rewrite Hne, os_Create_ok by done. simpl.
    unfold file_write. rewrite lookup_insert_eq. simpl.
    rewrite lookup_insert_eq. simpl. rewrite app_nil_r, !count_app.
    rewrite dump_no_create. unfold count; simpl. split_and!; try done.
  - rewrite Hne, os_Create_ok by done. simpl.
    destruct (IH (S k) (file_write (<[out:=File "" (write_time E k) true]> fs)
                         out (line_of v0) (write_time E k)))
      as (Hx & Hf & Hc & Hs).
    rewrite !count_app, !count_cons, dump_no_create, Hc, Hs. simpl.
    split_and!; done.
Qed.

(** The loop ends the process only on an error value or when the
    output file cannot be created. *)
Lemma emit_ok k vs fs :
  out = "" \/ os_writable E out = true ->
  exit (emit cfg E k (map yield vs) fs) = Exit0.
Proof.
  intros H. destruct (decide (out = "")) as [Ho|Ho].
  { by rewrite emit_stdout. }
  destruct H as [H|Hw]; [done|].
  destruct vs as [|v vs _] using rev_ind; [done|].
  by destruct (emit_file k vs v fs Ho Hw) as (? & _).
Qed.

End Output.

(** ** Whole runs *)

Section Runs.
Context {Value : Type}.
Variables (cfg : Config) (E : @Env Value).

Lemma settled_no_decode (t : list (@Event Value)) :
  (forall d err, EDecode d err ∉ t) -> settled t = true.
Proof.
  intros H. rewrite <- (app_nil_r t). rewrite settled_app_quiet; [done|].
  intros d err Hd. by destruct (H d err).
Qed.

Lemma retry_settled Args urls cfs n j (dat : gmap string Value) fs :
  settled (fst (retry cfg E Args urls cfs n j dat fs)) = true.
Proof.
  revert j dat. induction n as [|n IH]; intros j dat; [done|].
  destruct (decide (size dat = 0%nat)) as [Hd|Hd];
    [|by rewrite retry_nonempty].
  destruct (decide (length Args = 0%nat)) as [HN|HN].
  { simpl. by rewrite Hd, HN. }
  destruct (retry_S_cases cfg E Args urls cfs n j dat fs Hd HN)
    as [(t & Ha & Hq)|[(t & d' & fs' & Ha & Hq)|(t & d' & Ha & Hq)]];
    rewrite Hq; simpl.
  - pose proof (attempt_settled_last cfg E Args urls cfs j dat fs Hd) as Hs.
    rewrite Ha in Hs. by apply Hs.
  - pose proof (attempt_settled_last cfg E Args urls cfs j dat fs Hd) as Hs.
    rewrite Ha in Hs. by apply Hs.
  - pose proof (attempt_settled cfg E Args urls cfs j dat fs) as Hs.
    rewrite Ha in Hs. simpl in Hs. rewrite (Hs _ d' Hd eq_refl).
    assert (forall e, e ∈ pacing cfg Args j -> exists k d, e = @ESleep Value k d) as Hp.
    { intros e [-> _]%pacing_in. eauto. }
    destruct (size d' =? 0)%nat eqn:Hz.
    + rewrite settled_app_quiet; [apply IH|].
      intros d err [k [d0 [=]]]%Hp.
    + apply Nat.eqb_neq in Hz. rewrite retry_nonempty by done. simpl.
      rewrite app_nil_r. apply forallb_forall.
      by intros e [k [d0 ->]]%list_elem_of_In%Hp.
Qed.

(** The loop never ends the process with exit code 0. *)
Lemma retry_abort Args urls cfs n j (dat : gmap string Value) fs x :
  snd (retry cfg E Args urls cfs n j dat fs) = LAbort x -> x <> Exit0.
Proof.
  revert j dat. induction n as [|n IH]; intros j dat; [done|].
  destruct (decide (size dat = 0%nat)) as [Hd|Hd];
    [|by rewrite retry_nonempty].
  destruct (decide (length Args = 0%nat)) as [HN|HN].
  { simpl. rewrite Hd, HN. simpl. by intros [= <-]. }
  destruct (retry_S_cases cfg E Args urls cfs n j dat fs Hd HN)
    as [(t & Ha & Hq)|[(t & d' & fs' & Ha & Hq)|(t & d' & Ha & Hq)]];
    rewrite Hq; simpl; [by intros [= <-] | done | apply IH].
Qed.

(** [doCurl] is the loop followed, when the loop has not ended the
    process and the query compiles, by the query and the output loop. *)
Lemma doCurl_trace Args urls cfs JQ (dat : gmap string Value) fs :
  let l := retry cfg E Args urls cfs (Z.to_nat (maxTries cfg)) 0 dat fs in
  let r := doCurl cfg E Args urls cfs JQ dat fs in
  exists tail,
    trace r = fst l ++ tail
    /\ (forall e, e ∈ tail ->
          (exists d' fs', e = EQuery d' /\ snd l = LDone d' fs') \/ is_output e = true)
    /\ (exit r = Exit0 -> exists d' fs', snd l = LDone d' fs' /\ EQuery d' ∈ tail).
Proof.
  intros l r. unfold r, doCurl. fold l.
  destruct l as [t [x|d' fs']] eqn:Hl; simpl.
  - exists []. rewrite app_nil_r. split_and!; [done | by intros e ?%elem_of_nil |].
    intros ->. assert (snd l = LAbort Exit0) as Hx by by rewrite Hl.
    by apply retry_abort in Hx.
  - destruct (gojq_Parse E JQ) as [run|]; simpl.
    + exists (EQuery d' :: trace (emit cfg E 0 (run d') fs')).
      split_and!; [done | |].
      * intros e [->|He]%elem_of_cons; [left; eauto | right; by eapply emit_output].
      * intros _. exists d', fs'. split; [done | apply list_elem_of_here].
    + exists []. rewrite app_nil_r. split_and!; [done | by intros e ?%elem_of_nil | done].
Qed.

Lemma doCurl_tail_quiet (tail : list (@Event Value)) (P : gmap string Value -> Prop) :
  (forall e, e ∈ tail -> (exists d', e = EQuery d' /\ P d') \/ is_output e = true) ->
  quiet tail = true.
Proof.
  intros H. apply forallb_forall. intros e He%list_elem_of_In.
  destruct (H e He) as [(d' & -> & _)|Ho]; [done | by destruct e].
Qed.

Lemma doCurl_settled Args urls cfs JQ (dat : gmap string Value) fs :
  settled (trace (doCurl cfg E Args urls cfs JQ dat fs)) = true.
Proof.
  destruct (doCurl_trace Args urls cfs JQ dat fs) as (tail & -> & Ht & _).
  apply settled_then_quiet; [apply retry_settled|].
  apply (doCurl_tail_quiet tail (fun _ => True)).
  intros e He. destruct (Ht e He) as [(d' & fs' & -> & _)|]; eauto.
Qed.

(** With a document in hand [doCurl] goes straight to the query. *)
Lemma doCurl_nonempty Args urls cfs JQ (dat : gmap string Value) fs :
  size dat <> 0%nat ->
  doCurl cfg E Args urls cfs JQ dat fs =
    match gojq_Parse E JQ with
    | None => mkRun [] fs Exit1
    | Some run =>
      let r := emit cfg E 0 (run dat) fs in
      mkRun (EQuery dat :: trace r) (fs_final r) (exit r)
    end.
Proof. intros Hd. unfold doCurl. by rewrite retry_nonempty. Qed.

Lemma doCurl_quiet Args urls cfs JQ (dat : gmap string Value) fs :
  size dat <> 0%nat ->
  quiet (trace (doCurl cfg E Args urls cfs JQ dat fs)) = true.
Proof.
  intros Hd. rewrite doCurl_nonempty by done.
  destruct (gojq_Parse E JQ) as [run|]; [|done]. simpl.
  apply quiet_outputs. intros e. apply emit_output.
Qed.

(** The scan leaves [dat] as it found it or as one decoding made it. *)
Lemma cache_scan_settled fs i Args cfs (dat : gmap string Value) rest :
  size dat = 0%nat ->
  let sc := cache_scan cfg E fs i Args cfs dat in
  settled (sc.1.1 ++ rest) =
    if (size sc.2 =? 0)%nat then settled rest else quiet rest.
Proof.
  intros Hd. revert i cfs. induction Args as [|a Args IH]; intros i cfs.
  - simpl. by rewrite Hd.
  - rewrite cache_scan_cons. destruct (cache_lookup cfg E fs i a); simpl; [done|].
    rewrite <- app_assoc, settled_app_quiet; [apply IH|].
    by intros d err [?|?]%probe_in.
Qed.

(** [main] either stops before the scan, or after it when the network
    namespace cannot be entered, or runs [doCurl] on what the scan left. *)
Lemma main_cases fs :
  (exit (main cfg E fs) = Exit1
   /\ forall e, e ∈ trace (main cfg E fs) -> e = EUsage \/ exists s, e = EStdout s)
  \/ exists JQ Args urls,
       CmdArgs cfg = JQ :: Args /\ Args <> [] /\ parse_urls E Args = inr urls
       /\ let sc := scan cfg E fs Args in
          (main cfg E fs = mkRun sc.1.1 fs Exit1
           \/ main cfg E fs =
              let r := doCurl cfg E Args urls sc.1.2 JQ sc.2 fs in
              mkRun (sc.1.1 ++ trace r) (fs_final r) (exit r)).
Proof.
  unfold main.
  destruct (negb (ca cfg =? "") && _);
    [left; split; [done | by intros e ?%elem_of_nil]|].
  destruct (negb (cert cfg =? "") && _ && _);
    [left; split; [done | by intros e ?%elem_of_nil]|].
  destruct (CmdArgs cfg) as [|JQ [|a Args]];
    [left; split; [done | intros e ->%list_elem_of_singleton; eauto]
    |left; split; [done | intros e ->%list_elem_of_singleton; eauto]|].
  destruct (parse_urls E (a :: Args)) as [msg|urls] eqn:Hp;
    [left; split; [done | intros e ->%list_elem_of_singleton; eauto]|].
  right. exists JQ, (a :: Args), urls. split_and!; try done.
  destruct (scan cfg E fs (a :: Args)) as [[t cfs] d]. simpl.
  destruct (negb (docker cfg =? "") && negb (netns_GetFromDocker E (docker cfg)));
    [by left | by right].
Qed.

Lemma main_settled fs : settled (trace (main cfg E fs)) = true.
Proof.
  destruct (main_cases fs)
    as [[_ H]|(JQ & Args & urls & _ & _ & _ & [-> | ->])]; simpl.
  - apply settled_no_decode. intros d err Hd. by destruct (H _ Hd) as [|[]].
  - rewrite <- (app_nil_r (scan cfg E fs Args).1.1).
    unfold scan. rewrite cache_scan_settled by done. by case_match.
  - unfold scan. rewrite cache_scan_settled by done. case_match eqn:Hz.
    + apply doCurl_settled.
    + apply doCurl_quiet. by apply Nat.eqb_neq in Hz.
Qed.

End Runs.

(** ** The slots of [cacheFiles] *)

Section Slots.
Context {Value : Type}.
Variables (cfg : Config) (E : @Env Value) (fs : FS).

Lemma slots_ok_insert A cfs i a :
  A !! i = Some a -> slots_ok cfg E A cfs ->
  slots_ok cfg E A (<[i := cacheFile cfg E a]> cfs).
Proof.
  intros Ha H k. rewrite nth_lookup, list_lookup_insert.
  case_decide as Hk; simpl.
  - destruct Hk as [<- _]. right. eauto.
  - rewrite <- nth_lookup. apply H.
Qed.

Lemma cache_scan_slots A i rest cfs (dat : gmap string Value) :
  (forall k b, rest !! k = Some b -> A !! (i + k)%nat = Some b) ->
  slots_ok cfg E A cfs ->
  slots_ok cfg E A (cache_scan cfg E fs i rest cfs dat).1.2.
Proof.
  revert i cfs. induction rest as [|b rest IH]; intros i cfs HA H; [done|].
  assert (A !! i = Some b) as Hb.
  { specialize (HA 0%nat b eq_refl). by rewrite Nat.add_0_r in HA. }
  rewrite cache_scan_cons. destruct (cache_lookup cfg E fs i b); simpl.
  - by apply slots_ok_insert.
  - apply IH; [|by apply slots_ok_insert].
    intros k c Hk. specialize (HA (S k) c Hk). by rewrite Nat.add_succ_r in HA.
Qed.

Lemma scan_slots Args : slots_ok cfg E Args (scan cfg E fs Args).1.2.
Proof.
  unfold scan. apply cache_scan_slots; [done|].
  intros k. left. rewrite nth_lookup.
  destruct (replicate (length Args) "" !! k) as [x|] eqn:Hx; [|done].
  by apply lookup_replicate in Hx as [-> _].
Qed.

End Slots.

(** What an attempt writes is a body that has just been decoded, and a
    write that succeeds is not to the empty path. *)
Lemma attempt_write_decoded {Value : Type} (cfg : Config) (E : @Env Value)
    (Args urls cfs : list string) j (dat : gmap string Value) fs path byt ok :
  EWriteFile path byt ok ∈ fst (attempt cfg E Args urls cfs j dat fs) ->
  snd (json_Unmarshal E byt dat) = false /\ (ok = true -> path <> "").
Proof.
  unfold attempt.
  destruct (post_reader_ok cfg fs); [|by intros ?%elem_of_nil]. simpl.
  destruct (http_NewRequest E _ _); [|by intros ?%elem_of_nil]. simpl.
  assert (forall t : list (@Event Value),
            EWriteFile path byt ok ∈ debug_headers cfg E j ++ t ->
            EWriteFile path byt ok ∈ t) as Hh.
  { intros t [H|H]%elem_of_app; [|done].
    by apply debug_headers_stdout in H as [? [=]]. }
  destruct (client_Do E j _) as [msg| |b]; simpl.
  - rewrite <- app_assoc. intros H%Hh.
    destruct (debug cfg); set_unfold in H; destruct_or?; simplify_eq.
  - intros H%Hh. set_unfold in H; destruct_or?; simplify_eq.
  - destruct (json_Unmarshal E b dat) as [d1 err] eqn:Hu.
    destruct err; [destruct (debug cfg); simpl; rewrite <- app_assoc;
                   intros H%Hh; set_unfold in H; destruct_or?; simplify_eq|].
    destruct (useCache cfg); simpl;
      [|rewrite <- app_assoc; intros H%Hh;
        set_unfold in H; destruct_or?; simplify_eq].
    unfold ioutil_WriteFile.
    destruct (nth (j mod length Args) cfs "" =? "") eqn:Hp; simpl.
    + destruct (debug cfg); simpl; rewrite <- !app_assoc; intros H%Hh;
        set_unfold in H; destruct_or?; simplify_eq; by rewrite Hu.
    + apply String.eqb_neq in Hp.
      destruct (os_writable E _); simpl; [|destruct (debug cfg); simpl];
        rewrite <- !app_assoc; intros H%Hh;
        set_unfold in H; destruct_or?; simplify_eq; by rewrite Hu.
Qed.

(** ** The rotation *)

Section Rotation.
Context {Value : Type}.
Variables (cfg : Config) (E : @Env Value).
Variables (Args urls cacheFiles : list string).




End Rotation.

(** ** The specification, claim by claim *)

(** C1 on a cache file written ten hours ago, with the default maximum
    age of four hours: the file is older than the maximum age, and the
    scan reads it, decodes it and the run answers from it without any
    request. *)
Theorem stale_entry_served :
  Sample.stale_fs !! cacheFile Sample.stale_cfg Sample.stale Sample.urlA =
    Some (File Sample.doc_y2 0 true)
  /\ (0 + maxAge Sample.stale_cfg < time_Now Sample.stale 0)%Z
  /\ cache_lookup Sample.stale_cfg Sample.stale Sample.stale_fs 0 Sample.urlA =
       Some Sample.doc_y2
  /\ trace (main Sample.stale_cfg Sample.stale Sample.stale_fs) =
       [EStat Sample.keyA; EReadFile Sample.keyA true;
        EDecode (<["y" := Sample.JNum 2]> ∅) false;
        EQuery (<["y" := Sample.JNum 2]> ∅); EStdout "2
"]
  /\ exit (main Sample.stale_cfg Sample.stale Sample.stale_fs) = Exit0.
Proof. split_and!; vm_compute; reflexivity. Qed.

(** C2. For a target list of length [N >= 1] and [maxTries = M >= 0]:
    the loop sends at most [M] requests; a delay is only ever inserted
    at the end of an attempt [k] with [k mod N = N - 1]; a successful
    attempt ends the loop on the spot, with no delay behind it; and
    when every attempt fails the delay is inserted exactly [M / N]
    (rounded down) times. *)
Theorem retry_pacing {Value : Type} (cfg : Config) (E : @Env Value)
    (Args urls cacheFiles : list string) (dat : gmap string Value) (fs : FS) :
  length Args <> 0%nat -> (0 <= maxTries cfg)%Z ->
  let N := length Args in
  let M := Z.to_nat (maxTries cfg) in
  let t := fst (retry cfg E Args urls cacheFiles M 0 dat fs) in
  (Z.of_nat (count is_request t) <= maxTries cfg)%Z
  /\ (forall k d, ESleep k d ∈ t -> (k < M)%nat /\ (k mod N = N - 1)%nat)
  /\ (forall n j d0 t0 d' fs',
        size d0 = 0%nat ->
        attempt cfg E Args urls cacheFiles j d0 fs = (t0, Break d' fs') ->
        retry cfg E Args urls cacheFiles (S n) j d0 fs = (t0, LDone d' fs')
        /\ count is_sleep t0 = 0%nat)
  /\ (size dat = 0%nat -> all_fail cfg E Args urls cacheFiles M fs ->
        count is_request t = M
        /\ Z.of_nat (count is_sleep t) = (maxTries cfg / Z.of_nat N)%Z).
Proof.
  intros HN HM N M t. split_and!.
  - pose proof (retry_requests_le cfg E Args urls cacheFiles M 0 dat fs) as Hle.
    fold t in Hle. apply Nat2Z.inj_le in Hle. unfold M in Hle.
    by rewrite Z2Nat.id in Hle.
  - intros k d Hk. apply retry_sleep_in in Hk as (? & ? & _). split; [lia|done].
  - intros n j d0 t0 d' fs' Hd Ha. split; [by apply retry_break|].
    pose proof (attempt_no_sleep cfg E Args urls cacheFiles j d0 fs) as Hs.
    rewrite Ha in Hs. unfold count. simpl in Hs. by rewrite Hs.
  - intros Hd Hall.
    destruct (retry_all_fail cfg E Args urls cacheFiles M 0 dat fs HN Hd Hall)
      as (_ & Hreq & Hsl).
    unfold count. fold t in Hreq, Hsl. rewrite Hreq, Hsl.
    rewrite length_map, length_seq, pacing_count by done. split; [done|].
    unfold M. rewrite Nat2Z.inj_div, Z2Nat.id by done. done.
Qed.

(** Five tries over two targets that are both down: five requests, two
    delays. *)
Lemma retry_pacing_witness :
  count is_request
    (fst (retry Sample.offline_cfg Sample.offline Sample.targets Sample.targets
            Sample.keys 5 0 ∅ ∅)) = 5%nat
  /\ Z.of_nat (count is_sleep
       (fst (retry Sample.offline_cfg Sample.offline Sample.targets Sample.targets
               Sample.keys 5 0 ∅ ∅))) = 2%Z.
Proof.
  destruct (retry_pacing Sample.offline_cfg Sample.offline Sample.targets
              Sample.targets Sample.keys ∅ ∅) as (_ & _ & _ & H).
  - simpl. lia.
  - simpl. lia.
  - apply H; [reflexivity|].
    intros j d _ Hd. eexists _, d. split; [reflexivity | exact Hd].
Defined.




(** C4, as the code has it. Caching is on and force refresh is off; no
    target before [a] has a readable cache file; the cache file of [a]
    is readable, not dated in the future, no older than the maximum age,
    and decodes to a non-empty document [d].  Then the run sends no
    request, any query it runs is run on [d], and a run that exits with
    code 0 has run its query on [d]. *)
Theorem cache_hit_short_circuit {Value : Type} (cfg : Config) (E : @Env Value)
    (fs : FS) (JQString : string) (pre : list string) (a : string)
    (post : list string) (f : file) :
  CmdArgs cfg = JQString :: pre ++ a :: post ->
  useCache cfg = true -> flush cfg = false ->
  (forall b, b ∈ pre -> ioutil_ReadFile fs (cacheFile cfg E b) = None) ->
  fs !! cacheFile cfg E a = Some f -> f_readable f = true ->
  (0 < maxAge cfg)%Z ->
  (f_mtime f <= time_Now E (length pre) <= f_mtime f + maxAge cfg)%Z ->
  let d := fst (json_Unmarshal E (f_data f) ∅) in
  size d <> 0%nat ->
  let r := main cfg E fs in
  count is_request (trace r) = 0%nat
  /\ (forall d', EQuery d' ∈ trace r -> d' = d)
  /\ (exit r = Exit0 -> EQuery d ∈ trace r).
Proof.
  intros Hargs Hc Hf Hpre Hfile Hr Hage Hfresh d Hd r.
  assert (cache_lookup cfg E fs (0 + length pre) a = Some (f_data f)) as Hhit.
  { apply cache_lookup_Some. exists f. split_and!; try done. simpl. lia. }
  assert (forall k b, pre !! k = Some b -> cache_lookup cfg E fs (0 + k) b = None)
    as Hmiss.
  { intros k b Hk. apply cache_lookup_unreadable, Hpre.
    by eapply list_elem_of_lookup_2. }
  pose proof (cache_scan_hit cfg E fs pre a post (f_data f) 0
                (replicate (length (pre ++ a :: post)) "") ∅ Hmiss Hhit) as Hscan.
  fold d in Hscan. fold (scan cfg E fs (pre ++ a :: post)) in Hscan.
  assert (forall e, e ∈ (scan cfg E fs (pre ++ a :: post)).1.1 ->
            is_request e = false /\ forall d', e <> EQuery d') as Hsc.
  { intros e He%cache_scan_events. by destruct e. }
  rewrite Hscan in Hsc. simpl in Hsc.
  unfold r.
  destruct (main_cases cfg E fs)
    as [[Hx H]|(JQ & Args & urls & HA & _ & _ & [Hm | Hm])].
  - split_and!.
    + apply count_0_forall. intros e He. by destruct (H e He) as [->|[s ->]].
    + intros d' He. by destruct (H _ He) as [|[]].
    + by rewrite Hx.
  - rewrite Hargs in HA. injection HA as <- <-. rewrite Hm, Hscan. simpl.
    split_and!.
    + apply count_0_forall. intros e He. by apply Hsc.
    + intros d' He. apply Hsc in He as [_ He]. by destruct (He d').
    + done.
  - rewrite Hargs in HA. injection HA as <- <-. rewrite Hm. simpl.
    rewrite Hscan. simpl.
    rewrite doCurl_nonempty by done.
    destruct (gojq_Parse E JQString) as [run|]; simpl.
    + split_and!.
      * rewrite count_app, count_cons. simpl.
        assert (forall t : list (@Event Value),
                  (forall e, e ∈ t -> is_request e = false) -> count is_request t = 0%nat)
          as H0 by (intros t; apply count_0_forall).
        rewrite !H0; [done | | ].
        -- intros e He%emit_output. by destruct e.
        -- intros e He. by apply Hsc.
      * intros d' [He|He]%elem_of_app.
        -- apply Hsc in He as [_ He]. by destruct (He d').
        -- apply elem_of_cons in He as [[= ->]|He]; [done|].
           apply emit_output in He. done.
      * intros _. apply elem_of_app. right. apply list_elem_of_here.
    + split_and!; [|intros d' He|done].
      * rewrite app_nil_r. apply count_0_forall. intros e He. by apply Hsc.
      * rewrite app_nil_r in He. apply Hsc in He as [_ He]. by destruct (He d').
Qed.

(** A cache file one hour old holding a non-empty object: no request. *)
Lemma cache_hit_short_circuit_witness :
  count is_request
    (trace (main Sample.stale_cfg Sample.online Sample.fresh_fs)) = 0%nat.
Proof.
  destruct (cache_hit_short_circuit Sample.stale_cfg Sample.online Sample.fresh_fs
              ".y" [] Sample.urlA []
              (File Sample.doc_y2 (9 * Sample.hour) true)) as (H & _).
  - reflexivity.
  - reflexivity.
  - reflexivity.
  - intros b Hb. by apply elem_of_nil in Hb.
  - vm_compute. reflexivity.
  - reflexivity.
  - vm_compute. reflexivity.
  - vm_compute. split; discriminate.
  - vm_compute. lia.
  - exact H.
Defined.

(** C4 as stated fails: caching is on, force refresh is off and the
    cache file of target 0 is one hour old, with four hours allowed;
    its content is the empty object, and the run sends a request. *)
Lemma cache_hit_counterexample :
  useCache Sample.hollow_cfg = true
  /\ flush Sample.hollow_cfg = false
  /\ Sample.hollow_fs !! cacheFile Sample.hollow_cfg Sample.online Sample.urlA =
       Some (File "{}" (9 * Sample.hour) true)
  /\ (9 * Sample.hour <= time_Now Sample.online 0
      <= 9 * Sample.hour + maxAge Sample.hollow_cfg)%Z
  /\ List.filter is_request
       (trace (main Sample.hollow_cfg Sample.online Sample.hollow_fs)) =
     [ERequest 0 0 Sample.urlA].
Proof.
  split_and!; try (vm_compute; reflexivity).
  - vm_compute. discriminate.
  - vm_compute. discriminate.
Qed.

(** C5. With force refresh set the scan reads and decodes nothing, every
    file is only probed, [dat] stays empty and all cache file names are
    set; so the loop starts and, if a try is allowed and the request can
    be built, attempt 0 sends its request.  With caching on, an attempt
    whose body decodes writes the body to the cache file of its target,
    and the file holds the body when the write succeeds.  With caching
    off, no run reads or writes a cache file. *)
Theorem force_refresh {Value : Type} (cfg : Config) (E : @Env Value) (fs : FS)
    (Args urls : list string) (JQString : string) :
  let keys := map (cacheFile cfg E) Args in
  (flush cfg = true ->
     scan cfg E fs Args = (map (fun a => EStat (cacheFile cfg E a)) Args, keys, ∅))
  /\ (flush cfg = true -> (0 < maxTries cfg)%Z -> length Args <> 0%nat ->
      post_reader_ok cfg fs = true ->
      http_NewRequest E (method cfg) (nth 0 urls "") = true ->
      ERequest 0 0 (nth 0 urls "")
        ∈ trace (doCurl cfg E Args urls keys JQString ∅ fs))
  /\ (useCache cfg = true -> forall j dat byt a,
      let i := (j mod length Args)%nat in
      Args !! i = Some a ->
      post_reader_ok cfg fs = true ->
      http_NewRequest E (method cfg) (nth i urls "") = true ->
      client_Do E j (nth i urls "") = Body byt ->
      snd (json_Unmarshal E byt dat) = false ->
      let att := attempt cfg E Args urls keys j dat fs in
      let w := ioutil_WriteFile E fs (cacheFile cfg E a) byt (write_time E j) in
      EWriteFile (cacheFile cfg E a) byt (negb (snd w)) ∈ fst att
      /\ (snd w = false ->
          snd att = Break (fst (json_Unmarshal E byt dat)) (fst w))
      /\ (cacheFile cfg E a <> "" -> os_writable E (cacheFile cfg E a) = true ->
          snd w = false
          /\ f_data <$> fst w !! cacheFile cfg E a = Some byt))
  /\ (useCache cfg = false ->
      forall e, e ∈ trace (main cfg E fs) ->
        is_cache_read e = false /\ is_cache_write e = false).
Proof.
  intros keys. split_and!.
  - intros Hf. unfold scan. rewrite cache_scan_miss.
    + rewrite probes_off by (by left). f_equal. f_equal.
      apply (fill_all cfg E Args []).
    + intros k b _. apply cache_lookup_off. by left.
  - intros Hf HM HN Hp Hn.
    destruct (doCurl_trace cfg E Args urls keys JQString ∅ fs) as (tail & -> & _).
    apply elem_of_app. left.
    destruct (Z.to_nat (maxTries cfg)) as [|n] eqn:Hn'; [lia|].
    destruct (retry_prefix cfg E Args urls keys n 0 ∅ fs) as [rest ->]; try done.
    { by rewrite Nat.Div0.mod_0_l. }
    apply elem_of_app. right. unfold request_of.
    rewrite Nat.Div0.mod_0_l. apply list_elem_of_here.
  - intros Hc j dat byt a i Ha Hp Hn Hb He att w.
    pose proof (attempt_body cfg E Args urls keys j dat fs byt Hp Hn Hb) as Hatt.
    fold i in Hatt. cbv zeta in Hatt.
    assert (nth i keys "" = cacheFile cfg E a) as Hk.
    { apply nth_lookup_Some. unfold keys. by rewrite list_lookup_fmap, Ha. }
    rewrite Hk, He, Hc in Hatt. simpl in Hatt. fold w att in Hatt.
    split_and!.
    + rewrite Hatt. simpl. apply elem_of_app. right. apply list_elem_of_here.
    + intros Hw. rewrite Hatt, Hw. done.
    + intros Hne Hw. unfold w. rewrite ioutil_WriteFile_ok by done. simpl.
      by rewrite lookup_insert_eq.
  - intros Hc e He.
    assert (forall t : list (@Event Value), e ∈ t ->
              List.filter is_cache_read t = [] -> is_cache_read e = false) as Hnr.
    { intros t Ht Hfl. destruct (is_cache_read e) eqn:Hr; [|done].
      assert (In e (List.filter is_cache_read t)) as Hin.
      { apply filter_In. split; [by apply list_elem_of_In | done]. }
      by rewrite Hfl in Hin. }
    destruct (main_cases cfg E fs)
      as [[_ H]|(JQ & Args' & urls' & _ & _ & _ & Hm)].
    { by destruct (H e He) as [->|[s ->]]. }
    assert (scan cfg E fs Args' =
              (map (fun a => EStat (cacheFile cfg E a)) Args',
               fill cfg E 0 Args' (replicate (length Args') ""), ∅)) as Hs.
    { unfold scan. rewrite cache_scan_miss; [by rewrite probes_off by (by right)|].
      intros k b _. apply cache_lookup_off. by right. }
    rewrite Hs in Hm. simpl in Hm.
    assert (e ∈ map (fun a => @EStat Value (cacheFile cfg E a)) Args' ->
            is_cache_read e = false /\ is_cache_write e = false) as Hst.
    { by intros (b & -> & _)%list_elem_of_fmap. }
    destruct Hm as [Hm|Hm]; rewrite Hm in He; simpl in He; [auto|].
    apply elem_of_app in He as [He|He]; [auto|].
    destruct (doCurl_trace cfg E Args' urls' (fill cfg E 0 Args' (replicate (length Args') ""))
                JQ ∅ fs) as (tail & Ht & Htail & _).
    rewrite Ht in He. apply elem_of_app in He as [He|He].
    + apply retry_in in He as [(k & d & He)|Hsl]; [|by destruct e].
      split.
      * eapply Hnr; [exact He | apply attempt_no_read].
      * destruct e; try done.
        apply attempt_write_in in He as (_ & Hu & _). congruence.
    + destruct (Htail e He) as [(d' & fs' & -> & _)|Ho]; [done | by destruct e].
Qed.

(** Force refresh over a fresh cache file: the fetched body is written
    to the cache file of the target. *)
Lemma force_refresh_witness :
  EWriteFile Sample.keyA Sample.doc_x1 true
    ∈ fst (attempt Sample.flush_cfg Sample.online [Sample.urlA] [Sample.urlA]
             [Sample.keyA] 0 ∅ Sample.fresh_fs).
Proof.
  destruct (force_refresh Sample.flush_cfg Sample.online Sample.fresh_fs
              [Sample.urlA] [Sample.urlA] ".x") as (_ & _ & H & _).
  destruct (H eq_refl 0%nat ∅ Sample.doc_x1 Sample.urlA) as (Hw & _);
    try reflexivity.
  exact Hw.
Defined.

(** C6, as the code has it. When every attempt fails without ending the
    process, [doCurl] runs the query on the empty document and the
    process exits with code 0, provided the query compiles, yields no
    error and the output file, if one is set, can be created. *)
Theorem exhaustion_then_query {Value : Type} (cfg : Config) (E : @Env Value)
    (Args urls cfs : list string) (JQString : string) (fs : FS)
    (run : gmap string Value -> list (@Result Value)) (vs : list Value) :
  length Args <> 0%nat ->
  all_fail cfg E Args urls cfs (Z.to_nat (maxTries cfg)) fs ->
  gojq_Parse E JQString = Some run ->
  run ∅ = map Yield vs ->
  outputFile cfg = "" \/ os_writable E (outputFile cfg) = true ->
  let r := doCurl cfg E Args urls cfs JQString ∅ fs in
  exit r = Exit0
  /\ EQuery ∅ ∈ trace r
  /\ count is_request (trace r) = Z.to_nat (maxTries cfg).
Proof.
  intros HN Hall Hq Hrun Hout r.
  destruct (retry_all_fail cfg E Args urls cfs (Z.to_nat (maxTries cfg)) 0 ∅ fs
              HN (map_size_empty (M := gmap string)) Hall) as ((d' & Hl & Hd') & Hreq & _).
  apply map_size_empty_inv in Hd'. subst d'.
  unfold r, doCurl.
  destruct (retry cfg E Args urls cfs _ 0 ∅ fs) as [t l]. simpl in Hl, Hreq.
  subst l. rewrite Hq, Hrun. simpl. split_and!.
  - by apply emit_ok.
  - apply elem_of_app. right. apply list_elem_of_here.
  - rewrite count_app, count_cons. simpl. unfold count at 1.
    rewrite Hreq, length_map, length_seq.
    assert (count is_request (trace (emit cfg E 0 (map Yield vs) fs)) = 0%nat) as ->.
    { apply count_0_forall. intros e He%emit_output. by destruct e. }
    lia.
Qed.

(** Both servers down, output to stdout: the run ends with code 0. *)
Lemma exhaustion_then_query_witness :
  exit (doCurl Sample.offline_cfg Sample.offline Sample.targets Sample.targets
          Sample.keys ".x" ∅ ∅) = Exit0.
Proof.
  destruct (exhaustion_then_query Sample.offline_cfg Sample.offline Sample.targets
              Sample.targets Sample.keys ".x" ∅ (fun d => [Sample.field "x" d])
              [Sample.JNull]) as (H & _).
  - simpl. lia.
  - intros j d _ Hd. eexists _, d. split; [reflexivity | exact Hd].
  - reflexivity.
  - reflexivity.
  - left. reflexivity.
  - exact H.
Defined.

(** C6 as stated fails: the only attempt fails, the query compiles and
    yields [null] without error, and the process still ends with exit
    code 1, because the output file cannot be created. *)
Lemma exhaustion_counterexample :
  all_fail Sample.readonly_cfg Sample.offline [Sample.urlA] [Sample.urlA]
    [Sample.keyA] 1 ∅
  /\ Sample.query ".x" = Some (fun d => [Sample.field "x" d])
  /\ Sample.field "x" ∅ = Yield Sample.JNull
  /\ fst (fst (scan Sample.readonly_cfg Sample.offline ∅ [Sample.urlA])) =
       [EStat Sample.keyA]
  /\ snd (scan Sample.readonly_cfg Sample.offline ∅ [Sample.urlA]) = ∅
  /\ exit (main Sample.readonly_cfg Sample.offline ∅) = Exit1.
Proof.
  split_and!; try (vm_compute; reflexivity).
  intros j d _ Hd. eexists _, d. split; [reflexivity | exact Hd].
Qed.

(** C7. Take an attempt whose request is answered with a body.  If the
    body does not decode, the attempt ends the process exactly when
    [debug] is set, and with [debug] off it is a failed attempt after
    which the loop goes on.  If the body decodes and the cache file
    cannot be written, the attempt ends the process exactly when [debug]
    is set, and with [debug] off the loop stops with the document. *)
Theorem debug_promotion {Value : Type} (cfg : Config) (E : @Env Value)
    (Args urls cfs : list string) (j : nat) (dat : gmap string Value) (fs : FS)
    (byt : string) :
  let i := (j mod length Args)%nat in
  let u := nth i urls "" in
  post_reader_ok cfg fs = true ->
  http_NewRequest E (method cfg) u = true ->
  client_Do E j u = Body byt ->
  let d' := fst (json_Unmarshal E byt dat) in
  let err := snd (json_Unmarshal E byt dat) in
  let werr := snd (ioutil_WriteFile E fs (nth i cfs "") byt (write_time E j)) in
  let a := attempt cfg E Args urls cfs j dat fs in
  (err = true ->
     (snd a = Fatal <-> debug cfg = true)
     /\ (debug cfg = false -> snd a = Continue d'))
  /\ (err = false -> useCache cfg = true -> werr = true ->
     (snd a = Fatal <-> debug cfg = true)
     /\ (debug cfg = false -> snd a = Break d' fs))
  /\ (size dat = 0%nat -> length Args <> 0%nat -> forall n,
      let l := retry cfg E Args urls cfs (S n) j dat fs in
      let l' := retry cfg E Args urls cfs n (S j) d' fs in
      (err = true -> debug cfg = true -> snd l = LAbort Exit1)
      /\ (err = true -> debug cfg = false ->
          l = (fst a ++ pacing cfg Args j ++ fst l', snd l'))
      /\ (err = false -> useCache cfg = true -> werr = true ->
          debug cfg = true -> snd l = LAbort Exit1)
      /\ (err = false -> useCache cfg = true -> werr = true ->
          debug cfg = false -> l = (fst a, LDone d' fs))).
Proof.
  intros i u Hp Hn Hc d' err werr a.
  pose proof (attempt_body cfg E Args urls cfs j dat fs byt Hp Hn Hc) as Ha.
  fold a i d' err in Ha. cbv zeta in Ha. fold werr in Ha.
  assert (werr = true ->
          fst (ioutil_WriteFile E fs (nth i cfs "") byt (write_time E j)) = fs) as Hfs.
  { apply ioutil_WriteFile_err. }
  assert (err = true ->
    (snd a = Fatal <-> debug cfg = true) /\ (debug cfg = false -> snd a = Continue d')) as H1.
  { intros He. rewrite Ha, He. destruct (debug cfg); simpl; (split; [split; done | done]). }
  assert (err = false -> useCache cfg = true -> werr = true ->
    (snd a = Fatal <-> debug cfg = true) /\ (debug cfg = false -> snd a = Break d' fs)) as H2.
  { intros He Hu Hw. rewrite Ha, He, Hu, Hw, (Hfs Hw).
    destruct (debug cfg); simpl; (split; [split; done | done]). }
  split_and!; [done | done |].
  intros Hd HN n l l'. split_and!.
  - intros He Hdb. apply H1 in He as [He _]. apply He in Hdb.
    unfold l. destruct a as [t s] eqn:Haa. simpl in Hdb. subst s.
    by erewrite retry_fatal.
  - intros He Hdb. apply H1 in He as [_ He]. apply He in Hdb.
    unfold l, l'. destruct a as [t s] eqn:Haa. simpl in Hdb. subst s.
    by erewrite retry_continue.
  - intros He Hu Hw Hdb. destruct (H2 He Hu Hw) as [Hf _]. apply Hf in Hdb.
    unfold l. destruct a as [t s] eqn:Haa. simpl in Hdb. subst s.
    by erewrite retry_fatal.
  - intros He Hu Hw Hdb. destruct (H2 He Hu Hw) as [_ Hb]. apply Hb in Hdb.
    unfold l. destruct a as [t s] eqn:Haa. simpl in Hdb. subst s.
    by erewrite retry_break.
Qed.

(** A body that is not JSON, [debug] off: the attempt fails and the
    loop goes on. *)
Lemma debug_promotion_witness :
  snd (attempt Sample.garbled_cfg Sample.garbled [Sample.urlA] [Sample.urlA]
         [Sample.keyA] 0 ∅ ∅) = Continue ∅.
Proof.
  destruct (debug_promotion Sample.garbled_cfg Sample.garbled [Sample.urlA]
              [Sample.urlA] [Sample.keyA] 0 ∅ ∅ "<html>") as ((_ & H) & _).
  - reflexivity.
  - reflexivity.
  - reflexivity.
  - reflexivity.
  - apply H. reflexivity.
Defined.

(** C8. Once [dat] is not empty the loop does nothing more; and in any
    run, after a decoding that left a non-empty document there is no
    cache probe, no cache read, no request and no second decoding. *)
Theorem success_invariant {Value : Type} (cfg : Config) (E : @Env Value) (fs : FS) :
  (forall Args urls cfs n j (dat : gmap string Value) fs',
     size dat <> 0%nat ->
     retry cfg E Args urls cfs n j dat fs' = ([], LDone dat fs'))
  /\ (forall t1 d err t2,
        trace (main cfg E fs) = t1 ++ EDecode d err :: t2 -> size d <> 0%nat ->
        forall e, e ∈ t2 -> is_fetch e = false).
Proof.
  split.
  - intros. by apply retry_nonempty.
  - intros t1 d err t2 Ht Hd. eapply settled_split; [apply main_settled | done..].
Qed.

(** A run answered from the cache: nothing is fetched after the
    decoding. *)
Lemma success_invariant_witness :
  Forall (fun e => is_fetch e = false)
    [EQuery (<["y" := Sample.JNum 2]> ∅); EStdout "2
"].
Proof.
  pose proof (success_invariant Sample.stale_cfg Sample.stale Sample.stale_fs)
    as [_ H].
  apply Forall_forall.
  apply (H [EStat Sample.keyA; EReadFile Sample.keyA true]
           (<["y" := Sample.JNum 2]> ∅) false).
  - vm_compute. reflexivity.
  - vm_compute. lia.
Defined.

(** C9 on two targets whose cache files can both be read: the file of
    the first was written ten hours ago, with four hours allowed, and is
    not JSON; the file of the second is one hour old.  The first target
    with a fresh readable file is the second one, and the scan stops on
    the first: it reads the expired file, drops the decoding error and
    never probes the file of the second target; the loop then fetches
    the first target. *)
Theorem scan_stops_on_expired_file :
  Sample.expired_fs !! cacheFile Sample.broken_cfg Sample.online Sample.urlA =
    Some (File "<html>" 0 true)
  /\ (0 + maxAge Sample.broken_cfg < time_Now Sample.online 0)%Z
  /\ Sample.expired_fs !! cacheFile Sample.broken_cfg Sample.online Sample.urlB =
       Some (File Sample.doc_y2 (9 * Sample.hour) true)
  /\ (9 * Sample.hour <= time_Now Sample.online 1
      <= 9 * Sample.hour + maxAge Sample.broken_cfg)%Z
  /\ (scan Sample.broken_cfg Sample.online Sample.expired_fs Sample.targets).1.1 =
       [EStat Sample.keyA; EReadFile Sample.keyA true; EDecode ∅ true]
  /\ List.filter is_request
       (trace (main Sample.broken_cfg Sample.online Sample.expired_fs)) =
       [ERequest 0 0 Sample.urlA]
  /\ count is_cache_read
       (trace (main Sample.broken_cfg Sample.online Sample.expired_fs)) = 1%nat.
Proof.
  split_and!; vm_compute; first [reflexivity | discriminate].
Qed.

(** C10. With an output file that can be created, the output loop
    creates (and so empties) the file once for every value of the query
    and the file ends up holding the line of the last value alone; with
    no output file, the line of every value goes to stdout, in order. *)
Theorem output_file_keeps_last {Value : Type} (cfg : Config) (E : @Env Value)
    (k : nat) (vs : list Value) (v : Value) (fs : FS) :
  (outputFile cfg <> "" -> os_writable E (outputFile cfg) = true ->
     let r := emit cfg E k (map Yield (vs ++ [v])) fs in
     exit r = Exit0
     /\ count is_create (trace r) = length (vs ++ [v])
     /\ f_data <$> fs_final r !! outputFile cfg = Some (render cfg E v))
  /\ (outputFile cfg = "" ->
     emit cfg E k (map Yield (vs ++ [v])) fs =
       mkRun (flat_map (fun v => debug_value cfg E v ++ [EStdout (render cfg E v)])
                (vs ++ [v]))
             fs Exit0).
Proof.
  split.
  - intros Ho Hw. destruct (emit_file cfg E k vs v fs Ho Hw) as (? & ? & ? & _).
    done.
  - intros Ho. by apply emit_stdout.
Qed.

(** The results [1] and [null] sent to a file: the file holds [null]. *)
Lemma output_file_keeps_last_witness :
  f_data <$> fs_final (emit Sample.tofile_cfg Sample.online 0
                         [Yield (Sample.JNum 1); Yield Sample.JNull] ∅)
             !! "/tmp/out.json" = Some "null
".
Proof.
  destruct (output_file_keeps_last Sample.tofile_cfg Sample.online 0
              [Sample.JNum 1] Sample.JNull ∅) as [H _].
  destruct H as (_ & _ & H); [discriminate | reflexivity |].
  exact H.
Defined.

(** * Beyond the specification *)

(** ** [headerValue.Set] *)

Lemma split_colon_None s : split_colon s = None <-> has_byte ":" s = false.
Proof.
  induction s as [|c s IH]; [done|]. cbn [split_colon has_byte].
  rewrite (Ascii.eqb_sym ":" c).
  destruct (Ascii.eqb c ":"); cbn [orb]; [done|].
  rewrite <- IH. destruct (split_colon s) as [[name value]|]; done.
Qed.

Lemma split_colon_app name value :
  has_byte ":" name = false ->
  split_colon (name +:+ String ":" value) = Some (name, value).
Proof.
  induction name as [|c name IH]; [done|].
  change (String c name +:+ String ":" value)
    with (String c (name +:+ String ":" value)).
  cbn [split_colon has_byte].
  rewrite (Ascii.eqb_sym ":" c).
  destruct (Ascii.eqb c ":"); cbn [orb]; [done|].
  intros H. by rewrite IH.
Qed.

(** X1. [Set] on a non-empty [val] returns the error exactly when
    [val[0]] holds no colon, and then [Headers] is not touched (the
    error carries no map); with a colon it returns [nil]. *)
Theorem header_without_colon (strings_TrimSpace strings_ToLower : string -> string)
    (v0 : string) (vs : list string) (Headers : gmap string string) :
  (headerValue_Set strings_TrimSpace strings_ToLower (v0 :: vs) Headers =
     SetError "Malformatted header" <-> has_byte ":" v0 = false)
  /\ (has_byte ":" v0 = true ->
      exists Headers',
        headerValue_Set strings_TrimSpace strings_ToLower (v0 :: vs) Headers =
          SetOk Headers').
Proof.
  unfold headerValue_Set. pose proof (split_colon_None v0) as Hn.
  destruct (split_colon v0) as [[name value]|].
  - split.
    + split; [done|]. intros H. apply Hn in H. done.
    + eauto.
  - split.
    + split; [intros _; by apply Hn | done].
    + intros H. rewrite (proj1 Hn eq_refl) in H. done.
Qed.

(** X2. Round trip of a header: for a name without a colon, the argument
    made of the name, a colon, one space and any value (which may start
    with spaces or hold colons) stores exactly that value under the
    trimmed, lower-cased name, and every other header keeps its entry. *)
Theorem header_round_trip (strings_TrimSpace strings_ToLower : string -> string)
    (name value : string) (vs : list string) (Headers : gmap string string) :
  has_byte ":" name = false ->
  exists Headers',
    headerValue_Set strings_TrimSpace strings_ToLower
      ((name +:+ ": " +:+ value) :: vs) Headers = SetOk Headers'
    /\ Headers' !! strings_ToLower (strings_TrimSpace name) = Some value
    /\ forall k, k <> strings_ToLower (strings_TrimSpace name) ->
         Headers' !! k = Headers !! k.
Proof.
  intros Hn. unfold headerValue_Set.
  change (name +:+ ": " +:+ value) with (name +:+ String ":" (String " " value)).
  rewrite split_colon_app by done.
  eexists. split; [reflexivity|]. split.
  - rewrite lookup_insert_eq. f_equal. unfold strings_TrimPrefix. simpl.
    by destruct value.
  - intros k Hk. by rewrite lookup_insert_ne.
Qed.

(** A bearer token with a colon and two spaces after the first colon. *)
Lemma header_round_trip_witness :
  exists Headers',
    headerValue_Set id id ["X-Token:  a:b"] Headers0 = SetOk Headers'
    /\ Headers' !! "X-Token" = Some " a:b"
    /\ forall k, k <> "X-Token" -> Headers' !! k = Headers0 !! k.
Proof.
  apply (header_round_trip id id "X-Token" " a:b" [] Headers0). reflexivity.
Defined.

(** ** The default cache directory *)

(** X3. The branch of [main] that would keep the value of [TEMP] is
    never taken: [temp[1:2]] is one byte and is compared with the two
    bytes of a colon and a backslash, so the default of [--cachedir] is
    [os.TempDir()] whatever [TEMP] holds. *)
Theorem default_cacheDir_is_TempDir (TEMP os_TempDir : string) :
  default_cacheDir TEMP os_TempDir = os_TempDir.
Proof.
  unfold default_cacheDir.
  assert ((substring 1 1 TEMP =? colon_backslash) = false) as ->;
    [|by rewrite andb_false_r].
  apply String.eqb_neq. unfold colon_backslash.
  destruct TEMP as [|c [|d r]]; cbn [substring]; intros [=].
  by destruct r.
Qed.

(** ** Start-up *)

Section Startup.
Context {Value : Type}.
Variables (cfg : Config) (E : @Env Value).

(** A parsed list has one URL for every argument, in order. *)
Lemma parse_urls_inr Args urls :
  parse_urls E Args = inr urls ->
  length urls = length Args
  /\ forall i a, Args !! i = Some a ->
       exists u, urls !! i = Some u /\ url_Parse E a = inr u.
Proof.
  revert urls. induction Args as [|b Args IH]; intros urls; simpl.
  - intros [= <-]. split; [done|]. intros i a Hi. by destruct i.
  - destruct (url_Parse E b) as [msg|u] eqn:Hb; [done|].
    destruct (parse_urls E Args) as [msg|urls']; [done|].
    intros [= <-]. destruct (IH urls' eq_refl) as [Hl Hall]. split.
    + simpl. by rewrite Hl.
    + intros [|i] a Hi; simpl in *; [injection Hi as <-; eauto | eauto].
Qed.

(** The error is that of the first argument that does not parse. *)
Lemma parse_urls_first_error pre a post msg :
  (forall b, b ∈ pre -> exists u, url_Parse E b = inr u) ->
  url_Parse E a = inl msg ->
  parse_urls E (pre ++ a :: post) = inl msg.
Proof.
  intros Hpre Ha. induction pre as [|b pre IH]; simpl.
  - by rewrite Ha.
  - destruct (Hpre b (list_elem_of_here _ _)) as [u ->].
    rewrite IH; [done|]. intros c Hc. apply Hpre. by apply list_elem_of_further.
Qed.

(** [main] with its conditions: what it is when it gets past the
    start-up checks. *)
Lemma main_run fs :
  (exit (main cfg E fs) = Exit1 /\ fs_final (main cfg E fs) = fs
   /\ forall e, e ∈ trace (main cfg E fs) ->
        e = EUsage \/ exists msg, e = EStdout ("Malformed URL: " +:+ msg +:+ "
"))
  \/ exists JQ a rest urls,
       CmdArgs cfg = JQ :: a :: rest /\ parse_urls E (a :: rest) = inr urls
       /\ let sc := scan cfg E fs (a :: rest) in
          let stuck := negb (docker cfg =? "")
                       && negb (netns_GetFromDocker E (docker cfg)) in
          main cfg E fs =
            if stuck then mkRun sc.1.1 fs Exit1
            else
              let r := doCurl cfg E (a :: rest) urls sc.1.2 JQ sc.2 fs in
              mkRun (sc.1.1 ++ trace r) (fs_final r) (exit r).
Proof.
  unfold main.
  destruct (negb (ca cfg =? "") && _);
    [left; split_and!; [done | done | by intros e ?%elem_of_nil]|].
  destruct (negb (cert cfg =? "") && _ && _);
    [left; split_and!; [done | done | by intros e ?%elem_of_nil]|].
  destruct (CmdArgs cfg) as [|JQ [|a Args]];
    [left; split_and!; [done | done | intros e ->%list_elem_of_singleton; eauto]
    |left; split_and!; [done | done | intros e ->%list_elem_of_singleton; eauto]|].
  destruct (parse_urls E (a :: Args)) as [msg|urls] eqn:Hp;
    [left; split_and!; [done | done | intros e ->%list_elem_of_singleton; eauto]|].
  right. exists JQ, a, Args, urls. split_and!; try done.
  destruct (scan cfg E fs (a :: Args)) as [[t cfs] d]. simpl.
  by destruct (negb (docker cfg =? "") && negb (netns_GetFromDocker E (docker cfg))).
Qed.

End Startup.

(** X4. Every request of a run goes to the [String()] of the parsed
    command-line URL with the index the request carries: [urls[i]] is
    never read out of range and never holds anything else. *)
Theorem requests_go_to_arguments {Value : Type} (cfg : Config) (E : @Env Value)
    (fs : FS) (j i : nat) (u : string) :
  ERequest j i u ∈ trace (main cfg E fs) ->
  exists a, tail (CmdArgs cfg) !! i = Some a /\ url_Parse E a = inr u.
Proof.
  intros He.
  destruct (main_run cfg E fs)
    as [(_ & _ & H)|(JQ & a & rest & urls & HA & Hp & Hm)].
  { by destruct (H _ He) as [|[]]. }
  cbv zeta in Hm. rewrite Hm in He. rewrite HA. simpl.
  assert (forall e : @Event Value,
            e ∈ (scan cfg E fs (a :: rest)).1.1 -> is_request e = false) as Hsc.
  { intros e Hin%cache_scan_events. by destruct e. }
  destruct (negb (docker cfg =? "") && _); simpl in He.
  { by apply Hsc in He. }
  apply elem_of_app in He as [He|He]; [by apply Hsc in He|].
  destruct (doCurl_trace cfg E (a :: rest) urls (scan cfg E fs (a :: rest)).1.2
              JQ (scan cfg E fs (a :: rest)).2 fs) as (tail & Ht & Htail & _).
  rewrite Ht in He. apply elem_of_app in He as [He|He].
  - apply retry_request_in in He as (k & _ & Hk); [|done].
    unfold request_of in Hk. injection Hk as -> -> ->.
    assert (k mod length (a :: rest) < length (a :: rest))%nat as Hlt.
    { apply Nat.mod_upper_bound. simpl. lia. }
    destruct (lookup_lt_is_Some_2 _ _ Hlt) as [b Hb].
    destruct (parse_urls_inr E _ _ Hp) as [_ Hall].
    destruct (Hall _ _ Hb) as (u' & Hu & Hpu).
    exists b. split; [done|]. by rewrite (nth_lookup_Some _ _ _ _ Hu).
  - by destruct (Htail _ He) as [(d' & fs' & [=] & _)|].
Qed.

(** The request of the run on a cache file that holds the empty object. *)
Lemma requests_go_to_arguments_witness :
  exists a, tail (CmdArgs Sample.hollow_cfg) !! 0%nat = Some a
            /\ url_Parse Sample.online a = inr Sample.urlA.
Proof.
  apply (requests_go_to_arguments Sample.hollow_cfg Sample.online
           Sample.hollow_fs 0 0 Sample.urlA).
  apply (list_elem_of_lookup_2 _ 3). vm_compute. reflexivity.
Defined.

(** X5. One argument that does not parse as a URL ends the run before
    anything is done: the exit code is 1, no file is probed, read or
    written, no request is sent and no query is run, whatever the other
    arguments are; all that may be printed is the error of the first
    such argument. *)
Theorem malformed_url_stops_run {Value : Type} (cfg : Config) (E : @Env Value)
    (fs : FS) (JQString : string) (pre : list string) (a : string)
    (post : list string) (msg : string) :
  CmdArgs cfg = JQString :: pre ++ a :: post ->
  (forall b, b ∈ pre -> exists u, url_Parse E b = inr u) ->
  url_Parse E a = inl msg ->
  exit (main cfg E fs) = Exit1
  /\ fs_final (main cfg E fs) = fs
  /\ forall e, e ∈ trace (main cfg E fs) ->
       e = EStdout ("Malformed URL: " +:+ msg +:+ "
").
Proof.
  intros HA Hpre Ha.
  pose proof (parse_urls_first_error E pre a post msg Hpre Ha) as Hp.
  unfold main. rewrite HA.
  destruct (negb (ca cfg =? "") && _);
    [split_and!; [done | done | by intros e ?%elem_of_nil]|].
  destruct (negb (cert cfg =? "") && _ && _);
    [split_and!; [done | done | by intros e ?%elem_of_nil]|].
  destruct (pre ++ a :: post) as [|b l] eqn:Hl; [by destruct pre|].
  rewrite Hp. split_and!; [done | done |].
  by intros e ->%list_elem_of_singleton.
Qed.

(** A good URL followed by one with an unclosed bracket. *)
Lemma malformed_url_stops_run_witness :
  exit (main Sample.badurl_cfg Sample.strict Sample.fresh_fs) = Exit1.
Proof.
  destruct (malformed_url_stops_run Sample.badurl_cfg Sample.strict
              Sample.fresh_fs ".x" [Sample.urlA] Sample.badurl []
              Sample.badurl_error) as (H & _).
  - reflexivity.
  - intros b ->%list_elem_of_singleton. eexists. reflexivity.
  - reflexivity.
  - exact H.
Defined.

(** ** More on attempts, the loop and the output loop *)

Section More.
Context {Value : Type}.
Variables (cfg : Config) (E : @Env Value).
Variables (Args urls cacheFiles : list string).

Lemma attempt_no_query j (dat : gmap string Value) fs :
  List.filter is_query (fst (attempt cfg E Args urls cacheFiles j dat fs)) = [].
Proof.
  unfold attempt.
  repeat case_match; simpl;
    rewrite ?List.filter_app, ?filter_debug_headers by done; simpl; done.
Qed.

(** An attempt prints to stdout only when [debug] is set. *)
Lemma attempt_stdout j (dat : gmap string Value) fs s :
  EStdout s ∈ fst (attempt cfg E Args urls cacheFiles j dat fs) ->
  debug cfg = true.
Proof.
  destruct (debug cfg) eqn:Hd; [done|].
  unfold attempt, debug_headers. rewrite Hd.
  repeat case_match; simpl; subst;
    intros Hin; set_unfold in Hin; destruct_or?; simplify_eq.
Qed.

(** The file system after an attempt that ends the loop: as before, or
    with the cache file of the target replaced. *)
Lemma attempt_fs j (dat : gmap string Value) fs t d' fs' :
  attempt cfg E Args urls cacheFiles j dat fs = (t, Break d' fs') ->
  fs' = fs
  \/ exists byt,
       nth (j mod length Args) cacheFiles "" <> ""
       /\ EWriteFile (nth (j mod length Args) cacheFiles "") byt true ∈ t
       /\ fs' = <[nth (j mod length Args) cacheFiles "" :=
                    File byt (write_time E j) true]> fs.
Proof.
  unfold attempt.
  destruct (post_reader_ok cfg fs); [|done]. simpl.
  destruct (http_NewRequest E _ _); [|done]. simpl.
  destruct (client_Do E j _) as [msg| |byt]; [done | done |].
  destruct (json_Unmarshal E byt dat) as [d1 err].
  destruct err; [by destruct (debug cfg)|].
  destruct (useCache cfg); simpl; [|intros [= <- <- <-]; by left].
  unfold ioutil_WriteFile.
  destruct (nth (j mod length Args) cacheFiles "" =? "") eqn:Hp; simpl.
  - destruct (debug cfg); simpl; [done|]. intros [= <- <- <-]. by left.
  - destruct (os_writable E _); simpl.
    + intros [= <- <- <-]. right. exists byt. split_and!; [| |done].
      * by apply String.eqb_neq.
      * apply elem_of_app. right. apply list_elem_of_here.
    + destruct (debug cfg); simpl; [done|]. intros [= <- <- <-]. by left.
Qed.

(** The loop changes at most one file: the cache file of the target of
    its last attempt. *)
Lemma retry_fs n j (dat : gmap string Value) fs d' fs' :
  snd (retry cfg E Args urls cacheFiles n j dat fs) = LDone d' fs' ->
  fs' = fs
  \/ exists k byt t,
       (k < length Args)%nat /\ nth k cacheFiles "" <> ""
       /\ EWriteFile (nth k cacheFiles "") byt true
            ∈ fst (retry cfg E Args urls cacheFiles n j dat fs)
       /\ fs' = <[nth k cacheFiles "" := File byt t true]> fs.
Proof.
  revert j dat. induction n as [|n IH]; intros j dat; [intros [= <- <-]; by left|].
  destruct (decide (size dat = 0%nat)) as [Hd|Hd];
    [|rewrite retry_nonempty by done; intros [= <- <-]; by left].
  destruct (decide (length Args = 0%nat)) as [HN|HN].
  { simpl. rewrite Hd, HN. done. }
  destruct (retry_S_cases cfg E Args urls cacheFiles n j dat fs Hd HN)
    as [(t & Ha & Hq)|[(t & d1 & fs1 & Ha & Hq)|(t & d1 & Ha & Hq)]];
    rewrite Hq; simpl; [done | |].
  - intros [= <- <-]. apply attempt_fs in Ha as [->|(byt & Hne & Hin & ->)];
      [by left|].
    right. exists (j mod length Args)%nat, byt, (write_time E j).
    split_and!; try done. by apply Nat.mod_upper_bound.
  - intros Hl. apply IH in Hl as [->|(k & byt & t' & Hk & Hne & Hin & ->)];
      [by left|].
    right. exists k, byt, t'. split_and!; try done.
    apply elem_of_app. right. apply elem_of_app. by right.
Qed.

Lemma retry_no_query n j (dat : gmap string Value) fs :
  count is_query (fst (retry cfg E Args urls cacheFiles n j dat fs)) = 0%nat.
Proof.
  apply count_0_forall. intros e He.
  apply retry_in in He as [(k & d & He)|Hs]; [|by destruct e].
  destruct (is_query e) eqn:Hq; [|done].
  assert (In e (List.filter is_query
                  (fst (attempt cfg E Args urls cacheFiles k d fs)))) as Hin.
  { apply filter_In. split; [by apply list_elem_of_In | done]. }
  by rewrite attempt_no_query in Hin.
Qed.

Lemma retry_stdout n j (dat : gmap string Value) fs s :
  EStdout s ∈ fst (retry cfg E Args urls cacheFiles n j dat fs) ->
  debug cfg = true.
Proof.
  intros He. apply retry_in in He as [(k & d & He)|Hs]; [|done].
  by eapply attempt_stdout.
Qed.

(** What is printed by the output loop: the lines of the values and,
    when [debug] is set, their dumps. *)
Lemma emit_stdout_in k rs fs s :
  EStdout s ∈ trace (emit cfg E k rs fs) ->
  debug cfg = true \/ exists v, s = render cfg E v.
Proof.
  assert (forall v, EStdout s ∈ debug_value cfg E v -> debug cfg = true) as Hdump.
  { intros v. unfold debug_value. destruct (debug cfg); [done|].
    by intros ?%elem_of_nil. }
  revert k fs. induction rs as [|[v|msg] rs IH]; intros k fs; simpl;
    [by intros ?%elem_of_nil | | by intros ?%elem_of_nil].
  destruct (outputFile cfg =? ""); simpl.
  - rewrite elem_of_app, elem_of_cons.
    intros [H|[[= ->]|H]]; [left; eauto | right; eauto | by eapply IH].
  - destruct (os_Create E fs (outputFile cfg) _); simpl.
    + rewrite elem_of_app, !elem_of_cons.
      intros [H|[[=]|[[=]|H]]]; [left; eauto | by eapply IH].
    + rewrite elem_of_app, list_elem_of_singleton.
      intros [H|[=]]. left; eauto.
Qed.

(** The output loop changes no file but the output file. *)
Lemma emit_fs k rs fs p :
  p <> outputFile cfg -> fs_final (emit cfg E k rs fs) !! p = fs !! p.
Proof.
  intros Hp. revert k fs. induction rs as [|[v|msg] rs IH]; intros k fs; simpl;
    [done | | done].
  destruct (outputFile cfg =? ""); simpl; [apply IH|].
  unfold os_Create. destruct (negb (outputFile cfg =? "") && _); simpl; [|done].
  rewrite IH. unfold file_write. rewrite lookup_insert_eq.
  by rewrite !lookup_insert_ne.
Qed.

(** The two shapes of a run of [doCurl]. *)
Lemma doCurl_shape JQ (dat : gmap string Value) fs :
  let l := retry cfg E Args urls cacheFiles (Z.to_nat (maxTries cfg)) 0 dat fs in
  let r := doCurl cfg E Args urls cacheFiles JQ dat fs in
  (trace r = fst l /\ exit r <> Exit0
   /\ (fs_final r = fs \/ exists d', snd l = LDone d' (fs_final r)))
  \/ exists d' fs' run,
       snd l = LDone d' fs' /\ gojq_Parse E JQ = Some run
       /\ r = let o := emit cfg E 0 (run d') fs' in
              mkRun (fst l ++ EQuery d' :: trace o) (fs_final o) (exit o).
Proof.
  intros l r. unfold r, doCurl. fold l.
  destruct l as [t [x|d' fs']] eqn:Hl; simpl.
  - left. split_and!; [done | | by left].
    intros ->. assert (snd l = LAbort Exit0) as Hx by by rewrite Hl.
    by apply retry_abort in Hx.
  - destruct (gojq_Parse E JQ) as [run|]; simpl.
    + right. by exists d', fs', run.
    + left. split_and!; [done | done | right; eauto].
Qed.

End More.

(** X6. When [--docker] names a container whose network namespace
    cannot be entered, the run ends with exit code 1 after the cache
    scan: no request is sent, no query is run and no file is changed,
    even when the scan has found a document in the cache. *)
Theorem docker_failure_stops_run {Value : Type} (cfg : Config) (E : @Env Value)
    (fs : FS) :
  docker cfg <> "" ->
  netns_GetFromDocker E (docker cfg) = false ->
  exit (main cfg E fs) = Exit1
  /\ fs_final (main cfg E fs) = fs
  /\ count is_request (trace (main cfg E fs)) = 0%nat
  /\ count is_query (trace (main cfg E fs)) = 0%nat.
Proof.
  intros Hd Hn.
  destruct (main_run cfg E fs)
    as [(Hx & Hf & H)|(JQ & a & rest & urls & HA & Hp & Hm)].
  - split_and!; [done | done | |]; apply count_0_forall; intros e He;
      by destruct (H e He) as [->|[msg ->]].
  - cbv zeta in Hm. apply String.eqb_neq in Hd. rewrite Hd, Hn in Hm.
    simpl in Hm. rewrite Hm. simpl.
    split_and!; [done | done | |]; apply count_0_forall;
      intros e He%cache_scan_events; by destruct e.
Qed.

(** A fresh cache file and a container that does not exist. *)
Lemma docker_failure_stops_run_witness :
  exit (main Sample.docker_cfg Sample.detached Sample.fresh_fs) = Exit1
  /\ count is_query
       (trace (main Sample.docker_cfg Sample.detached Sample.fresh_fs)) = 0%nat.
Proof.
  destruct (docker_failure_stops_run Sample.docker_cfg Sample.detached
              Sample.fresh_fs) as (H1 & _ & _ & H2).
  - discriminate.
  - reflexivity.
  - split; [exact H1 | exact H2].
Defined.

(** X7. With [--max-tries] at 0 or below the loop is not entered: a run
    sends no request, whatever the cache holds. *)
Theorem no_try_no_request {Value : Type} (cfg : Config) (E : @Env Value)
    (fs : FS) :
  (maxTries cfg <= 0)%Z ->
  count is_request (trace (main cfg E fs)) = 0%nat.
Proof.
  intros HM. apply count_0_forall. intros e He.
  destruct (main_run cfg E fs)
    as [(_ & _ & H)|(JQ & a & rest & urls & HA & Hp & Hm)].
  { by destruct (H e He) as [->|[msg ->]]. }
  cbv zeta in Hm. rewrite Hm in He.
  assert (forall e : @Event Value,
            e ∈ (scan cfg E fs (a :: rest)).1.1 -> is_request e = false) as Hsc.
  { intros e' Hin%cache_scan_events. by destruct e'. }
  destruct (negb (docker cfg =? "") && _); simpl in He; [by apply Hsc|].
  apply elem_of_app in He as [He|He]; [by apply Hsc|].
  destruct (doCurl_trace cfg E (a :: rest) urls (scan cfg E fs (a :: rest)).1.2
              JQ (scan cfg E fs (a :: rest)).2 fs) as (tail & Ht & Htail & _).
  rewrite Ht in He. replace (Z.to_nat (maxTries cfg)) with 0%nat in He by lia.
  simpl in He.
  destruct (Htail _ He) as [(d' & fs' & -> & _)|Ho]; [done | by destruct e].
Qed.

(** No try and an empty cache: the query runs on the empty document. *)
Lemma no_try_no_request_witness :
  count is_request (trace (main Sample.notry_cfg Sample.online ∅)) = 0%nat.
Proof.
  apply (no_try_no_request Sample.notry_cfg Sample.online ∅).
  simpl. lia.
Defined.

(** X8. A run hands a document to the query engine at most once, and a
    run that ends with exit code 0 has done so exactly once. *)
Theorem query_runs_once {Value : Type} (cfg : Config) (E : @Env Value) (fs : FS) :
  (count is_query (trace (main cfg E fs)) <= 1)%nat
  /\ (exit (main cfg E fs) = Exit0 ->
      count is_query (trace (main cfg E fs)) = 1%nat).
Proof.
  destruct (main_run cfg E fs)
    as [(Hx & _ & H)|(JQ & a & rest & urls & HA & Hp & Hm)].
  { assert (count is_query (trace (main cfg E fs)) = 0%nat) as ->.
    { apply count_0_forall. intros e He. by destruct (H e He) as [->|[msg ->]]. }
    split; [lia | by rewrite Hx]. }
  cbv zeta in Hm. rewrite Hm.
  assert (count is_query (scan cfg E fs (a :: rest)).1.1 = 0%nat) as Hsc.
  { apply count_0_forall. intros e Hin%cache_scan_events. by destruct e. }
  destruct (negb (docker cfg =? "") && _); simpl.
  { rewrite Hsc. split; [lia | done]. }
  rewrite count_app, Hsc. simpl.
  destruct (doCurl_shape cfg E (a :: rest) urls (scan cfg E fs (a :: rest)).1.2
              JQ (scan cfg E fs (a :: rest)).2 fs)
    as [(-> & Hx & _)|(d' & fs' & run & _ & _ & ->)].
  - rewrite retry_no_query. split; [lia | done].
  - simpl. rewrite count_app, count_cons, retry_no_query. simpl.
    assert (count is_query (trace (emit cfg E 0 (run d') fs')) = 0%nat) as ->.
    { apply count_0_forall. intros e He%emit_output. by destruct e. }
    split; [lia | done].
Qed.

(** X9. With [debug] off, all that a run writes to stdout, the usage
    text apart, is the message for a malformed URL or the rendering of
    a value of the query: requests, retries and cache traffic print
    nothing. *)
Theorem stdout_is_results_only {Value : Type} (cfg : Config) (E : @Env Value)
    (fs : FS) (s : string) :
  debug cfg = false ->
  EStdout s ∈ trace (main cfg E fs) ->
  (exists msg, s = "Malformed URL: " +:+ msg +:+ "
") \/ (exists v, s = render cfg E v).
Proof.
  intros Hd He.
  destruct (main_run cfg E fs)
    as [(_ & _ & H)|(JQ & a & rest & urls & HA & Hp & Hm)].
  { destruct (H _ He) as [|[msg [= ->]]]; [done | eauto]. }
  cbv zeta in Hm. rewrite Hm in He.
  assert (EStdout s ∈ (scan cfg E fs (a :: rest)).1.1 -> False) as Hsc.
  { by intros Hin%cache_scan_events. }
  destruct (negb (docker cfg =? "") && _); simpl in He; [by destruct Hsc|].
  apply elem_of_app in He as [He|He]; [by destruct Hsc|].
  destruct (doCurl_shape cfg E (a :: rest) urls (scan cfg E fs (a :: rest)).1.2
              JQ (scan cfg E fs (a :: rest)).2 fs)
    as [(Ht & _ & _)|(d' & fs' & run & _ & _ & Hr)].
  - rewrite Ht in He. apply retry_stdout in He. congruence.
  - rewrite Hr in He. simpl in He.
    apply elem_of_app in He as [He|He]; [apply retry_stdout in He; congruence|].
    apply elem_of_cons in He as [[=]|He].
    apply emit_stdout_in in He as [?|?]; [congruence | by right].
Qed.

(** The line printed by the run that is answered from a stale file. *)
Lemma stdout_is_results_only_witness :
  (exists msg, "2
" = "Malformed URL: " +:+ msg +:+ "
") \/ (exists v, "2
" = render Sample.stale_cfg Sample.stale v).
Proof.
  apply (stdout_is_results_only Sample.stale_cfg Sample.stale Sample.stale_fs).
  - reflexivity.
  - apply (list_elem_of_lookup_2 _ 4). vm_compute. reflexivity.
Defined.

(** X10. The age test of the scan lets any file pass that is not dated
    in the future: with caching on, force refresh off and a positive
    maximum age, a readable cache file written at or before the time of
    the scan is used however old it is; a file dated at least the
    maximum age ahead of the clock is the only kind that is skipped. *)
Theorem cache_file_never_expires {Value : Type} (cfg : Config) (E : @Env Value)
    (fs : FS) (i : nat) (Arg : string) (f : file) :
  fs !! cacheFile cfg E Arg = Some f ->
  f_readable f = true ->
  useCache cfg = true -> flush cfg = false ->
  ((0 < maxAge cfg)%Z -> (f_mtime f <= time_Now E i)%Z ->
     cache_lookup cfg E fs i Arg = Some (f_data f))
  /\ ((time_Now E i + maxAge cfg <= f_mtime f)%Z ->
     cache_lookup cfg E fs i Arg = None).
Proof.
  intros Hf Hr Hc Hfl. split.
  - intros Ha Hm. apply cache_lookup_Some. exists f. split_and!; try done. lia.
  - intros Hm. destruct (cache_lookup cfg E fs i Arg) as [byt|] eqn:Hl; [|done].
    apply cache_lookup_Some in Hl as (f' & Hf' & _ & _ & Hlt & _).
    rewrite Hf in Hf'. injection Hf' as <-. lia.
Qed.

(** The file written ten hours before the run, four hours allowed. *)
Lemma cache_file_never_expires_witness :
  cache_lookup Sample.stale_cfg Sample.stale Sample.stale_fs 0 Sample.urlA =
    Some Sample.doc_y2.
Proof.
  assert (Sample.stale_fs !! cacheFile Sample.stale_cfg Sample.stale Sample.urlA =
            Some (File Sample.doc_y2 0 true)) as Hf by (vm_compute; reflexivity).
  destruct (cache_file_never_expires Sample.stale_cfg Sample.stale
              Sample.stale_fs 0 Sample.urlA (File Sample.doc_y2 0 true)
              Hf eq_refl eq_refl eq_refl) as [H _].
  apply H; [reflexivity | discriminate].
Defined.

(** ** The cache key *)

(** Decimal digits of [pretty]. *)
Lemma string_app_assoc (a b c : string) : (a +:+ b) +:+ c = a +:+ (b +:+ c).
Proof.
  induction a as [|x a IH]; [done|].
  change (String x ((a +:+ b) +:+ c) = String x (a +:+ (b +:+ c))).
  by rewrite IH.
Qed.

Lemma pretty_N_go_app (x : N) (s : string) :
  pretty.pretty_N_go x s = pretty.pretty_N_go x "" +:+ s.
Proof.
  revert s. induction (N.lt_wf_0 x) as [x _ IH]; intros s.
  assert (x = 0 \/ 0 < x)%N as [->|Hx] by lia; [done|].
  assert (x / 10 < x)%N as Hlt by (by apply N.div_lt).
  rewrite (pretty.pretty_N_go_step x s), (pretty.pretty_N_go_step x "") by done.
  rewrite (IH _ Hlt (String (pretty.pretty_N_char (x mod 10)) s)).
  rewrite (IH _ Hlt (String (pretty.pretty_N_char (x mod 10)) "")).
  by rewrite string_app_assoc.
Qed.

Lemma pretty_N_digit (r : N) :
  (r < 10)%N -> pretty.pretty r = String (pretty.pretty_N_char r) "".
Proof.
  intros Hr. unfold pretty.pretty, pretty.pretty_N.
  case_decide as H0; [by subst|].
  rewrite pretty.pretty_N_go_step by lia.
  rewrite N.div_small, N.mod_small by done. done.
Qed.

Lemma pretty_N_split (n : N) :
  (10 <= n)%N ->
  pretty.pretty n = pretty.pretty (n / 10)%N +:+ pretty.pretty (n mod 10)%N.
Proof.
  intros Hn. rewrite (pretty_N_digit (n mod 10)) by (by apply N.mod_lt).
  unfold pretty.pretty at 1 2, pretty.pretty_N.
  assert (0 < n / 10)%N as Hq by (apply N.div_str_pos; lia).
  rewrite !decide_False by lia.
  rewrite pretty.pretty_N_go_step by lia. apply pretty_N_go_app.
Qed.

Lemma pretty_Z_nonneg (z : Z) :
  (0 <= z)%Z -> pretty.pretty z = pretty.pretty (Z.to_N z).
Proof. intros Hz. by destruct z. Qed.

Lemma pretty_Z_split (z : Z) :
  (10 <= z)%Z ->
  pretty.pretty z = pretty.pretty (z / 10)%Z +:+ pretty.pretty (z mod 10)%Z.
Proof.
  intros Hz.
  assert (0 <= z / 10)%Z as Hq by (apply Z.div_pos; lia).
  assert (0 <= z mod 10)%Z as Hr by (pose proof (Z.mod_pos_bound z 10); lia).
  rewrite (pretty_Z_nonneg z), (pretty_Z_nonneg (z / 10)),
    (pretty_Z_nonneg (z mod 10)) by lia.
  rewrite Z2N.inj_div, Z2N.inj_mod by lia.
  apply pretty_N_split. lia.
Qed.

(** X11. The digest is taken over the URL argument followed directly by
    the decimal user id, so cache files are shared across users: for
    every URL and every user whose id has two digits or more, the user
    whose id is the last digit of that id, asking for the URL followed
    by the other digits, is given the same cache file. *)
Theorem cache_key_collides {Value : Type} (cfg : Config) (E1 E2 : @Env Value)
    (a : string) :
  sha1_hex E1 = sha1_hex E2 ->
  (10 <= os_Getuid E1)%Z ->
  os_Getuid E2 = (os_Getuid E1 mod 10)%Z ->
  os_Getuid E2 <> os_Getuid E1
  /\ cacheFile cfg E2 (a +:+ pretty.pretty (os_Getuid E1 / 10)%Z) =
     cacheFile cfg E1 a.
Proof.
  intros Hs Hu H2. split.
  - rewrite H2. pose proof (Z.mod_pos_bound (os_Getuid E1) 10). lia.
  - unfold cacheFile. rewrite Hs, H2, string_app_assoc.
    by rewrite <- pretty_Z_split.
Qed.

(** User 3 asking for [.../12] and user 23 asking for [.../1]. *)
Lemma cache_key_collides_witness :
  cacheFile Sample.stale_cfg Sample.user3 "http://h/12" =
  cacheFile Sample.stale_cfg Sample.user23 "http://h/1".
Proof.
  destruct (cache_key_collides Sample.stale_cfg Sample.user23 Sample.user3
              "http://h/1") as [_ H].
  - reflexivity.
  - vm_compute. discriminate.
  - reflexivity.
  - exact H.
Defined.

(** The name of a cache file is never empty. *)
Lemma cacheFile_nonempty {Value : Type} (cfg : Config) (E : @Env Value) a :
  cacheFile cfg E a <> "".
Proof. unfold cacheFile. by destruct (cacheDir cfg). Qed.

(** ** What is stored, and where *)

(** X12. Whatever a run stores in the cache is a body it has received
    from the URL of one of its arguments and that [json.Unmarshal]
    accepted, and it is stored in the cache file of that very argument. *)
Theorem cache_receives_decoded_bodies {Value : Type} (cfg : Config)
    (E : @Env Value) (fs : FS) (path byt : string) :
  EWriteFile path byt true ∈ trace (main cfg E fs) ->
  exists j i a u d,
    tail (CmdArgs cfg) !! i = Some a
    /\ path = cacheFile cfg E a
    /\ url_Parse E a = inr u
    /\ client_Do E j u = Body byt
    /\ snd (json_Unmarshal E byt d) = false.
Proof.
  intros He.
  destruct (main_run cfg E fs)
    as [(_ & _ & H)|(JQ & a & rest & urls & HA & Hp & Hm)].
  { by destruct (H _ He) as [|[]]. }
  cbv zeta in Hm. rewrite Hm in He. rewrite HA. simpl.
  assert (forall e : @Event Value,
            e ∈ (scan cfg E fs (a :: rest)).1.1 -> is_cache_write e = false) as Hsc.
  { intros e Hin%cache_scan_events. by destruct e. }
  destruct (negb (docker cfg =? "") && _); simpl in He.
  { by apply Hsc in He. }
  apply elem_of_app in He as [He|He]; [by apply Hsc in He|].
  destruct (doCurl_trace cfg E (a :: rest) urls (scan cfg E fs (a :: rest)).1.2
              JQ (scan cfg E fs (a :: rest)).2 fs) as (tail & Ht & Htail & _).
  rewrite Ht in He. apply elem_of_app in He as [He|He];
    [|by destruct (Htail _ He) as [(d' & fs' & [=] & _)|]].
  apply retry_in in He as [(k & d & He)|Hs]; [|done].
  pose proof He as Hw. apply attempt_write_in in Hw as (Hpath & _ & Hbody).
  apply attempt_write_decoded in He as (Hdec & Hne).
  specialize (Hne eq_refl).
  assert (k mod length (a :: rest) < length (a :: rest))%nat as Hlt.
  { apply Nat.mod_upper_bound. simpl. lia. }
  destruct (lookup_lt_is_Some_2 _ _ Hlt) as [b Hb].
  destruct (parse_urls_inr E _ _ Hp) as [_ Hall].
  destruct (Hall _ _ Hb) as (u & Hu & Hpu).
  rewrite (nth_lookup_Some _ _ _ _ Hu) in Hbody.
  destruct (scan_slots cfg E fs (a :: rest) (k mod length (a :: rest)))
    as [Hempty|(b' & Hb' & Hslot)]; [congruence|].
  rewrite Hb in Hb'. injection Hb' as <-.
  exists k, (k mod length (a :: rest))%nat, b, u, d.
  split_and!; try done. congruence.
Qed.

(** The body stored by a run over a cache file holding the empty object. *)
Lemma cache_receives_decoded_bodies_witness :
  exists j i a u d,
    tail (CmdArgs Sample.hollow_cfg) !! i = Some a
    /\ Sample.keyA = cacheFile Sample.hollow_cfg Sample.online a
    /\ url_Parse Sample.online a = inr u
    /\ client_Do Sample.online j u = Body Sample.doc_x1
    /\ snd (json_Unmarshal Sample.online Sample.doc_x1 d) = false.
Proof.
  apply (cache_receives_decoded_bodies Sample.hollow_cfg Sample.online
           Sample.hollow_fs Sample.keyA Sample.doc_x1).
  apply (list_elem_of_lookup_2 _ 5). vm_compute. reflexivity.
Defined.

(** X13. A run changes no file but the cache files of its URL arguments
    and the output file. *)
Theorem run_changes_only_its_files {Value : Type} (cfg : Config) (E : @Env Value)
    (fs : FS) (p : string) :
  p <> outputFile cfg ->
  (forall a, a ∈ tail (CmdArgs cfg) -> p <> cacheFile cfg E a) ->
  fs_final (main cfg E fs) !! p = fs !! p.
Proof.
  intros Hout Hkeys.
  destruct (main_run cfg E fs)
    as [(_ & -> & _)|(JQ & a & rest & urls & HA & Hp & Hm)]; [done|].
  cbv zeta in Hm. rewrite Hm. rewrite HA in Hkeys. simpl in Hkeys.
  destruct (negb (docker cfg =? "") && _); simpl; [done|].
  assert (forall d' fs',
    snd (retry cfg E (a :: rest) urls (scan cfg E fs (a :: rest)).1.2
           (Z.to_nat (maxTries cfg)) 0 (scan cfg E fs (a :: rest)).2 fs) =
      LDone d' fs' -> fs' !! p = fs !! p) as Hloop.
  { intros d' fs' Hl.
    apply retry_fs in Hl as [->|(k & byt & t & Hk & Hne & _ & ->)]; [done|].
    destruct (scan_slots cfg E fs (a :: rest) k) as [?|(b & Hb & Hs)]; [done|].
    rewrite Hs. rewrite lookup_insert_ne; [done|].
    intros <-. eapply Hkeys; [|done]. by eapply list_elem_of_lookup_2. }
  destruct (doCurl_shape cfg E (a :: rest) urls (scan cfg E fs (a :: rest)).1.2
              JQ (scan cfg E fs (a :: rest)).2 fs)
    as [(_ & _ & [-> | (d' & Hl)])|(d' & fs' & run & Hl & _ & ->)].
  - done.
  - by eapply Hloop.
  - simpl. rewrite emit_fs by done. by eapply Hloop.
Qed.

(** A run that stores a body and leaves another file alone. *)
Lemma run_changes_only_its_files_witness :
  fs_final (main Sample.hollow_cfg Sample.online Sample.hollow_fs)
    !! "/etc/passwd" = Sample.hollow_fs !! "/etc/passwd".
Proof.
  apply (run_changes_only_its_files Sample.hollow_cfg Sample.online
           Sample.hollow_fs "/etc/passwd").
  - discriminate.
  - intros a ->%list_elem_of_singleton. vm_compute. discriminate.
Defined.

(** ** Fatal and successful attempts *)

(** X14. A POST whose data argument names a file after [@] that cannot
    be opened ends the process in the first attempt, before any request
    is sent: [doCurl] does nothing and the exit code is 1. *)
Theorem post_body_unreadable {Value : Type} (cfg : Config) (E : @Env Value)
    (Args urls cfs : list string) (JQString : string) (dat : gmap string Value)
    (fs : FS) (name : string) :
  method cfg = "POST" ->
  postData cfg = String "@" name ->
  ioutil_ReadFile fs name = None ->
  size dat = 0%nat -> length Args <> 0%nat -> (0 < maxTries cfg)%Z ->
  doCurl cfg E Args urls cfs JQString dat fs = mkRun [] fs Exit1.
Proof.
  intros Hm Hp Hr Hd HN HM. unfold doCurl.
  destruct (Z.to_nat (maxTries cfg)) as [|n] eqn:Hn; [lia|].
  rewrite (retry_fatal cfg E Args urls cfs n 0 dat fs []); [done..|].
  unfold attempt, post_reader_ok. by rewrite Hm, Hp, Hr.
Qed.

(** A POST with [-d @body.json] where there is no such file. *)
Lemma post_body_unreadable_witness :
  doCurl Sample.post_cfg Sample.online [Sample.urlA] [Sample.urlA] [""] ".x" ∅ ∅ =
    mkRun [] ∅ Exit1.
Proof.
  apply (post_body_unreadable Sample.post_cfg Sample.online [Sample.urlA]
           [Sample.urlA] [""] ".x" ∅ ∅ "body.json");
    try reflexivity.
  - discriminate.
Defined.

(** X15. A body that [json.Unmarshal] accepts ends the loop after that
    one request whatever it decodes to, the empty object included: with
    [debug] off [doCurl] sends exactly one request and any query it
    runs is run on the decoded document. *)
Theorem decoded_body_ends_loop {Value : Type} (cfg : Config) (E : @Env Value)
    (Args urls cfs : list string) (JQString : string) (dat : gmap string Value)
    (fs : FS) (byt : string) :
  size dat = 0%nat -> length Args <> 0%nat -> (0 < maxTries cfg)%Z ->
  post_reader_ok cfg fs = true ->
  http_NewRequest E (method cfg) (nth 0 urls "") = true ->
  client_Do E 0 (nth 0 urls "") = Body byt ->
  snd (json_Unmarshal E byt dat) = false ->
  debug cfg = false ->
  let r := doCurl cfg E Args urls cfs JQString dat fs in
  count is_request (trace r) = 1%nat
  /\ forall d', EQuery d' ∈ trace r -> d' = fst (json_Unmarshal E byt dat).
Proof.
  intros Hd HN HM Hp Hn Hb He Hdb r.
  assert (0 mod length Args = 0)%nat as H0 by by apply Nat.Div0.mod_0_l.
  pose proof (attempt_body cfg E Args urls cfs 0 dat fs byt) as Ha.
  cbv zeta in Ha. rewrite H0 in Ha. specialize (Ha Hp Hn Hb).
  rewrite He, Hdb, andb_false_r in Ha.
  assert (exists t fs', attempt cfg E Args urls cfs 0 dat fs =
                          (t, Break (fst (json_Unmarshal E byt dat)) fs')) as
    (t & fs' & Ha').
  { rewrite Ha. destruct (negb (useCache cfg)); eauto. }
  pose proof (attempt_requests cfg E Args urls cfs 0 dat fs) as Hreq.
  rewrite H0, Hp, Hn, Ha' in Hreq. simpl in Hreq.
  destruct (Z.to_nat (maxTries cfg)) as [|n] eqn:Hn'; [lia|].
  pose proof (retry_break cfg E Args urls cfs n 0 dat fs _ _ _ Hd HN Ha') as Hl.
  assert (forall o : @Run Value,
    count is_request (t ++ EQuery (fst (json_Unmarshal E byt dat)) :: trace o) =
      (1 + count is_request (trace o))%nat) as Hcount.
  { intros o. rewrite count_app, count_cons. unfold count at 1. by rewrite Hreq. }
  destruct (doCurl_shape cfg E Args urls cfs JQString dat fs)
    as [(Ht & _ & _)|(d' & fs'' & run & Hl' & _ & Hr)]; fold r in Ht || fold r in Hr.
  - rewrite Ht, Hn', Hl. simpl. split; [unfold count; by rewrite Hreq|].
    intros d' Hin.
    assert (In (EQuery d') (List.filter is_query t)) as Hq.
    { apply filter_In. split; [by apply list_elem_of_In | done]. }
    pose proof (attempt_no_query cfg E Args urls cfs 0 dat fs) as Hnq.
    rewrite Ha' in Hnq. simpl in Hnq. by rewrite Hnq in Hq.
  - rewrite Hn', Hl in Hl', Hr. simpl in Hl', Hr. injection Hl' as <- <-.
    rewrite Hr. simpl. split.
    + rewrite Hcount.
      assert (count is_request (trace (emit cfg E 0
                (run (fst (json_Unmarshal E byt dat))) fs')) = 0%nat) as ->; [|done].
      apply count_0_forall. intros e Hin%emit_output. by destruct e.
    + intros d' [Hin|Hin]%elem_of_app.
      * assert (In (EQuery d') (List.filter is_query t)) as Hq.
        { apply filter_In. split; [by apply list_elem_of_In | done]. }
        pose proof (attempt_no_query cfg E Args urls cfs 0 dat fs) as Hnq.
        rewrite Ha' in Hnq. simpl in Hnq. by rewrite Hnq in Hq.
      * apply elem_of_cons in Hin as [[= ->]|Hin]; [done|].
        by apply emit_output in Hin.
Qed.

(** The server answers with the empty object: one request of thirty. *)
Lemma decoded_body_ends_loop_witness :
  count is_request
    (trace (doCurl Sample.empty_cfg Sample.hollow [Sample.urlA] [Sample.urlA]
              [Sample.keyA] ".x" ∅ ∅)) = 1%nat.
Proof.
  destruct (decoded_body_ends_loop Sample.empty_cfg Sample.hollow [Sample.urlA]
              [Sample.urlA] [Sample.keyA] ".x" ∅ ∅ "{}") as [H _].
  - reflexivity.
  - discriminate.
  - reflexivity.
  - reflexivity.
  - reflexivity.
  - reflexivity.
  - reflexivity.
  - reflexivity.
  - exact H.
Defined.

(** ** Errors of the query *)

(** X16. An error value among the results ends the process with exit
    code 1 after the values before it have been written out as usual;
    nothing that follows the error is looked at. *)
Theorem error_value_ends_output {Value : Type} (cfg : Config) (E : @Env Value)
    (k : nat) (vs : list Value) (msg : string) (rest : list (@Result Value))
    (fs : FS) :
  exit (emit cfg E k (map Yield vs) fs) = Exit0 ->
  emit cfg E k (map Yield vs ++ YieldErr msg :: rest) fs =
    mkRun (trace (emit cfg E k (map Yield vs) fs))
          (fs_final (emit cfg E k (map Yield vs) fs)) Exit1.
Proof.
  revert k fs. induction vs as [|v vs IH]; intros k fs; simpl; [done|].
  destruct (outputFile cfg =? ""); simpl.
  - intros Hx. by rewrite IH.
  - destruct (os_Create E fs (outputFile cfg) _); simpl; [|done].
    intros Hx. by rewrite IH.
Qed.

(** The value of [.x], an error, and a value that is never printed. *)
Lemma error_value_ends_output_witness :
  emit Sample.stale_cfg Sample.online 0 (Sample.failing ∅) ∅ =
    mkRun [EStdout "null
"] ∅ Exit1.
Proof.
  apply (error_value_ends_output Sample.stale_cfg Sample.online 0
           [Sample.JNull] "cannot iterate over: null" [Sample.field "y" ∅] ∅).
  reflexivity.
Defined.

(** ** Store, then look up *)

Section TwoRuns.
Context {Value : Type}.
Variables (cfg : Config) (E : @Env Value) (fs : FS).

(** [main] without certificates and without a network namespace. *)
Lemma main_plain JQ a rest urls :
  ca cfg = "" -> cert cfg = "" -> docker cfg = "" ->
  CmdArgs cfg = JQ :: a :: rest -> parse_urls E (a :: rest) = inr urls ->
  main cfg E fs =
    let sc := scan cfg E fs (a :: rest) in
    let r := doCurl cfg E (a :: rest) urls sc.1.2 JQ sc.2 fs in
    mkRun (sc.1.1 ++ trace r) (fs_final r) (exit r).
Proof.
  intros Hca Hcert Hdocker HA Hp. unfold main.
  rewrite Hca, Hcert, Hdocker, HA, Hp. simpl.
  by destruct (scan cfg E fs (a :: rest)) as [[t cfs] d].
Qed.

(** A run whose scan ends on a file that decodes to a document. *)
Lemma main_after_hit JQ pre a post byt :
  CmdArgs cfg = JQ :: pre ++ a :: post ->
  (forall k b, pre !! k = Some b -> cache_lookup cfg E fs k b = None) ->
  cache_lookup cfg E fs (length pre) a = Some byt ->
  size (fst (json_Unmarshal E byt ∅)) <> 0%nat ->
  count is_request (trace (main cfg E fs)) = 0%nat
  /\ forall d', EQuery d' ∈ trace (main cfg E fs) ->
       d' = fst (json_Unmarshal E byt ∅).
Proof.
  intros HA Hmiss Hhit Hd.
  pose proof (cache_scan_hit cfg E fs pre a post byt 0
                (replicate (length (pre ++ a :: post)) "") ∅ Hmiss Hhit) as Hscan.
  fold (scan cfg E fs (pre ++ a :: post)) in Hscan.
  assert (forall e : @Event Value, e ∈ (scan cfg E fs (pre ++ a :: post)).1.1 ->
            is_request e = false /\ is_query e = false) as Hsc.
  { intros e He%cache_scan_events. by destruct e. }
  destruct (main_run cfg E fs)
    as [(_ & _ & H)|(JQ' & a' & rest' & urls & HA' & Hp & Hm)].
  { split.
    - apply count_0_forall. intros e He. by destruct (H _ He) as [->|[msg ->]].
    - intros d' He. by destruct (H _ He) as [?|[msg ?]]. }
  rewrite HA in HA'. injection HA' as <- Hl. rewrite <- Hl in Hm.
  cbv zeta in Hm. rewrite Hm.
  destruct (negb (docker cfg =? "") && _); simpl.
  { split; [apply count_0_forall|]; intros e He; by apply Hsc in He as [? ?]. }
  rewrite Hscan in Hsc |- *. simpl in Hsc |- *.
  rewrite doCurl_nonempty by done.
  destruct (gojq_Parse E JQ) as [run|]; simpl.
  - split.
    + apply count_0_forall. intros e [He|He]%elem_of_app; [by apply Hsc|].
      apply elem_of_cons in He as [->|He%emit_output]; [done | by destruct e].
    + intros d' [He|He]%elem_of_app; [by apply Hsc in He as [_ ?]|].
      apply elem_of_cons in He as [[= ->]|He%emit_output]; done.
  - rewrite app_nil_r. split; [apply count_0_forall|]; intros e He;
      by apply Hsc in He as [? ?].
Qed.

(** A run that finds nothing in the cache and whose first request is
    answered with a body that decodes leaves that body in the cache file
    of the first target. *)
Lemma main_first_fetch JQ a rest u urls byt :
  ca cfg = "" -> cert cfg = "" -> docker cfg = "" ->
  CmdArgs cfg = JQ :: a :: rest -> parse_urls E (a :: rest) = inr (u :: urls) ->
  useCache cfg = true ->
  (forall k b, (a :: rest) !! k = Some b -> cache_lookup cfg E fs k b = None) ->
  (0 < maxTries cfg)%Z ->
  post_reader_ok cfg fs = true ->
  http_NewRequest E (method cfg) u = true ->
  client_Do E 0 u = Body byt ->
  snd (json_Unmarshal E byt ∅) = false ->
  os_writable E (cacheFile cfg E a) = true ->
  outputFile cfg <> cacheFile cfg E a ->
  fs_final (main cfg E fs) !! cacheFile cfg E a =
    Some (File byt (write_time E 0) true).
Proof.
  intros Hca Hcert Hdocker HA Hp Hc Hmiss HM Hpost Hn Hb He Hw Hout.
  assert (scan cfg E fs (a :: rest) =
            (probes cfg E fs 0 (a :: rest), map (cacheFile cfg E) (a :: rest), ∅))
    as Hscan.
  { unfold scan. rewrite cache_scan_miss by done. f_equal. f_equal.
    apply (fill_all cfg E (a :: rest) []). }
  rewrite (main_plain _ _ _ _ Hca Hcert Hdocker HA Hp). cbv zeta.
  rewrite Hscan. cbn [fst snd fs_final map].
  pose proof (attempt_body cfg E (a :: rest) (u :: urls)
                (cacheFile cfg E a :: map (cacheFile cfg E) rest) 0 ∅ fs byt) as Ha.
  cbv zeta in Ha. rewrite Nat.Div0.mod_0_l in Ha. simpl in Ha.
  specialize (Ha Hpost Hn Hb). rewrite He, Hc in Ha. simpl in Ha.
  rewrite ioutil_WriteFile_ok in Ha by (by try apply cacheFile_nonempty).
  simpl in Ha.
  destruct (Z.to_nat (maxTries cfg)) as [|n] eqn:Hn'; [lia|].
  pose proof (retry_break cfg E (a :: rest) (u :: urls)
                (cacheFile cfg E a :: map (cacheFile cfg E) rest) n 0 ∅ fs
                _ _ _ (map_size_empty (M := gmap string)) ltac:(done) Ha) as Hl.
  unfold doCurl. rewrite Hn', Hl.
  destruct (gojq_Parse E JQ) as [run|]; simpl.
  - rewrite emit_fs by done. by rewrite lookup_insert_eq.
  - by rewrite lookup_insert_eq.
Qed.

End TwoRuns.

(** X17. Store, then look up.  The first run is started without
    [--cacert], [--cert] and [--docker], with caching on, force refresh
    off and a positive maximum age, on URLs that all parse; it finds no
    target with a cache file that passes the test of the scan and can be
    read, is allowed at least one try, can open its POST body and build
    its request, and is answered at its first request with a body that
    decodes without error to a non-empty document; the cache file of its
    first target can be written and is not the output file.  Then the
    first run leaves that body in that cache file.  A second run with
    the same configuration, user id, digest and decoder, started on the
    file system the first one left with its clock at or after the time
    of the write, sends no request, and any query it runs is run on the
    document the first run decoded. *)
Theorem second_run_hits_cache {Value : Type} (cfg : Config) (E E' : @Env Value)
    (fs : FS) (JQString a : string) (rest : list string) (u : string)
    (urls : list string) (byt : string) :
  ca cfg = "" -> cert cfg = "" -> docker cfg = "" ->
  CmdArgs cfg = JQString :: a :: rest ->
  parse_urls E (a :: rest) = inr (u :: urls) ->
  useCache cfg = true -> flush cfg = false -> (0 < maxAge cfg)%Z ->
  (forall k b, (a :: rest) !! k = Some b -> cache_lookup cfg E fs k b = None) ->
  (0 < maxTries cfg)%Z ->
  post_reader_ok cfg fs = true ->
  http_NewRequest E (method cfg) u = true ->
  client_Do E 0 u = Body byt ->
  snd (json_Unmarshal E byt ∅) = false ->
  size (fst (json_Unmarshal E byt ∅)) <> 0%nat ->
  os_writable E (cacheFile cfg E a) = true ->
  outputFile cfg <> cacheFile cfg E a ->
  sha1_hex E' = sha1_hex E -> os_Getuid E' = os_Getuid E ->
  json_Unmarshal E' = json_Unmarshal E ->
  (write_time E 0 <= time_Now E' 0)%Z ->
  let fs1 := fs_final (main cfg E fs) in
  fs1 !! cacheFile cfg E a = Some (File byt (write_time E 0) true)
  /\ count is_request (trace (main cfg E' fs1)) = 0%nat
  /\ forall d', EQuery d' ∈ trace (main cfg E' fs1) ->
       d' = fst (json_Unmarshal E byt ∅).
Proof.
  intros Hca Hcert Hdocker HA Hp Hc Hfl Hage Hmiss HM Hpost Hn Hb He Hd Hw Hout
    Hsha Huid Hjson Htime fs1.
  assert (fs1 !! cacheFile cfg E a = Some (File byt (write_time E 0) true)) as Hfile.
  { by eapply main_first_fetch. }
  split; [done|].
  assert (cacheFile cfg E' a = cacheFile cfg E a) as Hkey.
  { unfold cacheFile. by rewrite Hsha, Huid. }
  assert (cache_lookup cfg E' fs1 (length (@nil string)) a = Some byt) as Hhit.
  { apply cache_lookup_Some. rewrite Hkey. eexists. split; [exact Hfile|].
    simpl. split_and!; try done. lia. }
  destruct (main_after_hit cfg E' fs1 JQString [] a rest byt) as [H1 H2];
    try done.
  - by rewrite Hjson.
  - split; [done|]. intros d' Hin. rewrite <- Hjson. by apply H2.
Qed.

(** A fetch at ten o'clock and the same command an hour later, the
    server being down by then. *)
Lemma second_run_hits_cache_witness :
  count is_request
    (trace (main Sample.store_cfg Sample.later
              (fs_final (main Sample.store_cfg Sample.online ∅)))) = 0%nat.
Proof.
  destruct (second_run_hits_cache Sample.store_cfg Sample.online Sample.later ∅
              ".x" Sample.urlA [] Sample.urlA [] Sample.doc_x1)
    as (_ & H & _).
  - reflexivity.
  - reflexivity.
  - reflexivity.
  - reflexivity.
  - reflexivity.
  - reflexivity.
  - reflexivity.
  - reflexivity.
  - intros k b Hk. destruct k as [|k]; [|destruct k; discriminate Hk].
    injection Hk as <-. vm_compute. reflexivity.
  - reflexivity.
  - reflexivity.
  - reflexivity.
  - reflexivity.
  - reflexivity.
  - vm_compute. lia.
  - reflexivity.
  - vm_compute. discriminate.
  - reflexivity.
  - reflexivity.
  - reflexivity.
  - vm_compute. discriminate.
  - exact H.
Defined.

(** ** No division by zero *)

Lemma retry_abort_Exit1 {Value : Type} (cfg : Config) (E : @Env Value)
    (Args urls cfs : list string) n j (dat : gmap string Value) fs x :
  length Args <> 0%nat ->
  snd (retry cfg E Args urls cfs n j dat fs) = LAbort x -> x = Exit1.
Proof.
  intros HN. revert j dat. induction n as [|n IH]; intros j dat; [done|].
  destruct (decide (size dat = 0%nat)) as [Hd|Hd];
    [|by rewrite retry_nonempty].
  destruct (retry_S_cases cfg E Args urls cfs n j dat fs Hd HN)
    as [(t & Ha & Hq)|[(t & d' & fs' & Ha & Hq)|(t & d' & Ha & Hq)]];
    rewrite Hq; simpl; [by intros [= <-] | done | apply IH].
Qed.

Lemma emit_no_panic {Value : Type} (cfg : Config) (E : @Env Value) k rs fs :
  exit (emit cfg E k rs fs) <> Panic.
Proof.
  revert k fs. induction rs as [|[v|msg] rs IH]; intros k fs; simpl; [done| |done].
  destruct (outputFile cfg =? ""); simpl; [apply IH|].
  destruct (os_Create E fs (outputFile cfg) _); simpl; [apply IH | done].
Qed.

(** X18. No run panics: [j % len(Args)] is only computed after [main]
    has made sure that there is at least one URL argument, and the
    length of [cacheFiles] is that of the argument list, so the slot of
    every attempt exists. *)
Theorem main_never_panics {Value : Type} (cfg : Config) (E : @Env Value) (fs : FS) :
  exit (main cfg E fs) <> Panic
  /\ forall Args, length (scan cfg E fs Args).1.2 = length Args.
Proof.
  split.
  - destruct (main_run cfg E fs)
      as [(Hx & _)|(JQ & a & rest & urls & HA & Hp & Hm)]; [by rewrite Hx|].
    cbv zeta in Hm. rewrite Hm.
    destruct (negb (docker cfg =? "") && _); simpl; [done|].
    unfold doCurl.
    destruct (retry cfg E (a :: rest) urls _ _ 0 _ fs) as [t [x|d' fs']] eqn:Hl.
    + simpl. assert (x = Exit1) as ->; [|done].
      eapply (retry_abort_Exit1 cfg E (a :: rest)); [done|]. by rewrite Hl.
    + destruct (gojq_Parse E JQ); simpl; [apply emit_no_panic | done].
  - intros Args. unfold scan.
    assert (forall i cfs (dat : gmap string Value),
              length (cache_scan cfg E fs i Args cfs dat).1.2 = length cfs) as H.
    { induction Args as [|a Args IH]; intros i cfs dat; [done|].
      rewrite cache_scan_cons. destruct (cache_lookup cfg E fs i a); simpl.
      - apply length_insert.
      - rewrite IH. apply length_insert. }
    by rewrite H, length_replicate.
Qed.

(** ** The scan, as it is written *)

(** X19. Let [a] be the first target whose cache file passes the test
    of the scan itself ([cache_lookup]: the file exists, caching is on,
    force refresh is off, its time is below the clock plus the maximum
    age) and can be read.  The scan probes the targets up to [a], reads
    and decodes the file of [a] and stops: the decoding error is
    dropped, [dat] is whatever the decoding left, and no later target is
    probed.  If [dat] is still empty, as after bytes that are not JSON,
    the retry loop runs and, when a try is allowed and the request can
    be built, opens with the request of attempt 0 to target 0. *)
Theorem scan_stops_at_first_usable {Value : Type} (cfg : Config) (E : @Env Value)
    (fs : FS) (pre : list string) (a : string) (post : list string)
    (byt : string) (urls : list string) (JQString : string) :
  (forall k b, pre !! k = Some b -> cache_lookup cfg E fs k b = None) ->
  cache_lookup cfg E fs (length pre) a = Some byt ->
  let Args := pre ++ a :: post in
  let d := fst (json_Unmarshal E byt ∅) in
  let err := snd (json_Unmarshal E byt ∅) in
  let sc := scan cfg E fs Args in
  sc.1.1 = probes cfg E fs 0 pre ++
           [EStat (cacheFile cfg E a); EReadFile (cacheFile cfg E a) true;
            EDecode d err]
  /\ sc.2 = d
  /\ (size d = 0%nat -> (0 < maxTries cfg)%Z ->
      post_reader_ok cfg fs = true ->
      http_NewRequest E (method cfg) (nth 0 urls "") = true ->
      exists rest,
        trace (doCurl cfg E Args urls sc.1.2 JQString sc.2 fs) =
          debug_headers cfg E 0 ++ ERequest 0 0 (nth 0 urls "") :: rest).
Proof.
  intros Hmiss Hhit Args d err sc.
  pose proof (cache_scan_hit cfg E fs pre a post byt 0
                (replicate (length Args) "") ∅ Hmiss Hhit) as Hscan.
  fold d err Args in Hscan. fold (scan cfg E fs Args) in Hscan. fold sc in Hscan.
  rewrite Hscan. simpl. split_and!; [done | done |].
  intros Hd HM Hp Hn.
  destruct (doCurl_trace cfg E Args urls
              (fill cfg E 0 (pre ++ [a]) (replicate (length Args) "")) JQString d fs)
    as (tail & -> & _).
  destruct (Z.to_nat (maxTries cfg)) as [|n] eqn:Hn'; [lia|].
  destruct (retry_prefix cfg E Args urls
              (fill cfg E 0 (pre ++ [a]) (replicate (length Args) "")) n 0 d fs)
    as [rest ->]; try done.
  { unfold Args. rewrite length_app. simpl. lia. }
  { by rewrite Nat.Div0.mod_0_l. }
  unfold request_of. rewrite Nat.Div0.mod_0_l, <- app_assoc. simpl. eauto.
Qed.

(** Two targets with fresh cache files, the first not JSON: the scan
    ends on the first with [dat] empty. *)
Lemma scan_stops_at_first_usable_witness :
  (scan Sample.broken_cfg Sample.online Sample.broken_fs Sample.targets).1.1 =
    [EStat Sample.keyA; EReadFile Sample.keyA true; EDecode ∅ true]
  /\ (scan Sample.broken_cfg Sample.online Sample.broken_fs Sample.targets).2 = ∅.
Proof.
  destruct (scan_stops_at_first_usable Sample.broken_cfg Sample.online
              Sample.broken_fs [] Sample.urlA [Sample.urlB] "<html>"
              Sample.targets ".y") as (H1 & H2 & _).
  - intros k b Hk. destruct k; discriminate Hk.
  - vm_compute. reflexivity.
  - split; [exact H1 | exact H2].
Defined.

(** X20. After a scan that stopped on target number [length pre], the
    slot of [cacheFiles] of every later target is still the empty
    string.  An attempt on such a target whose body decodes, caching
    being on, tries to write the body to the empty path; the write
    fails, nothing is stored, and the attempt ends the process when
    [debug] is set and ends the loop with the document otherwise. *)
Theorem store_after_early_stop {Value : Type} (cfg : Config) (E : @Env Value)
    (fs : FS) (pre : list string) (a : string) (post : list string)
    (lookup : string) (urls : list string) (k : nat) (dat : gmap string Value)
    (byt : string) :
  (forall j b, pre !! j = Some b -> cache_lookup cfg E fs j b = None) ->
  cache_lookup cfg E fs (length pre) a = Some lookup ->
  let Args := pre ++ a :: post in
  let i := (k mod length Args)%nat in
  (length pre < i)%nat ->
  post_reader_ok cfg fs = true ->
  http_NewRequest E (method cfg) (nth i urls "") = true ->
  client_Do E k (nth i urls "") = Body byt ->
  snd (json_Unmarshal E byt dat) = false ->
  let cfs := (scan cfg E fs Args).1.2 in
  nth i cfs "" = ""
  /\ attempt cfg E Args urls cfs k dat fs =
       (debug_headers cfg E k ++
          [request_of Args urls k; EDecode (fst (json_Unmarshal E byt dat)) false;
           EWriteFile "" byt false],
        if debug cfg then Fatal else Break (fst (json_Unmarshal E byt dat)) fs).
Proof.
  intros Hmiss Hhit Args i Hi Hp Hn Hb He cfs.
  assert (nth i cfs "" = "") as Hslot.
  { by apply (scan_later_slots cfg E fs pre a post lookup i). }
  split; [done|].
  assert (useCache cfg = true) as Hc.
  { by apply cache_lookup_Some in Hhit as (f & _ & _ & ? & _). }
  pose proof (attempt_body cfg E Args urls cfs k dat fs byt Hp Hn Hb) as Ha.
  cbv zeta in Ha. fold i in Ha. rewrite He, Hc, Hslot in Ha. simpl in Ha.
  rewrite Ha. rewrite <- app_assoc. done.
Qed.

(** The store of the second target after the scan has stopped on the
    first. *)
Lemma store_after_early_stop_witness :
  nth 1 (scan Sample.lopsided_cfg Sample.lopsided Sample.hollow_fs
           Sample.targets).1.2 "" = "".
Proof.
  destruct (store_after_early_stop Sample.lopsided_cfg Sample.lopsided
              Sample.hollow_fs [] Sample.urlA [Sample.urlB] "{}" Sample.targets
              1 ∅ Sample.doc_x1) as [H _].
  - intros j b Hj. destruct j; discriminate Hj.
  - vm_compute. reflexivity.
  - simpl. lia.
  - reflexivity.
  - reflexivity.
  - reflexivity.
  - reflexivity.
  - exact H.
Defined.
